(** * streamlit_app.py: AR(1) generator, moving-average smoother, orchestrator

    A shallow embedding of the computational kernel of [streamlit_app.py]:

    - [generate_markov_chain]  (lines 9-18)
    - [moving_average]         (lines 21-23)
    - [a_values], [series_dict] (lines 33-37)

    and, around them, the loops that rebuild the dict key by key
    (lines 40-46 and 49-63) and the x-coordinates of the two plotted
    curves (lines 66-74).  The statistics of one series (lines 51-61) are
    computed entirely inside numpy, scipy and statsmodels: the loop takes
    them as a parameter.  The rest of lines 65-112 only renders and is
    not modelled.

    Python exceptions are values of [py_exn]; code that touches numpy's
    process-wide random stream runs in the state-and-exception monad [Py].
    numpy's float64 scalars are an abstract type with its operations
    ([Float64]), and the theorems hold for any such type unless they say
    otherwise.  [binary64] instantiates it with IEEE double precision, on
    which the program runs and on which the counterexamples are computed;
    [exact_arith] instantiates it with the reals and is used only where
    the statement is an identity of float64 as well. *)

From Stdlib Require Import ZArith Reals Lra Lia.
From Stdlib Require Import Floats.PrimFloat.
From Stdlib Require Numbers.Cyclic.Int63.Uint63.
From stdpp Require Import base list strings pretty.

Set Warnings "-inexact-float".

Open Scope Z_scope.

(** ** Scalars and the random stream *)

(** The float64 operations the program uses.  [of_int] is the conversion
    numpy applies to a Python [int] operand. *)
Class Float64 (F : Type) := {
  fadd : F -> F -> F;
  fmul : F -> F -> F;
  fdiv : F -> F -> F;
  of_int : Z -> F
}.

(** numpy's legacy global [RandomState]: [init_by_seed s] is the state that
    [np.random.seed(s)] installs for an accepted seed, [randn_draw] is one
    call of [np.random.randn()] (the state carries the Mersenne Twister and
    the cached second gaussian). *)
Class RandomState (F G : Type) := {
  init_by_seed : Z -> G;
  randn_draw : G -> F * G
}.

(** ** Exceptions and the two monads *)

Inductive py_exn : Type :=
  | ValueError
  | IndexError.

(** A computation that may raise. *)
Definition Res (A : Type) : Type := (py_exn + A)%type.

#[global] Instance Res_ret : MRet Res := fun A a => inr a.
#[global] Instance Res_bind : MBind Res := fun A B k m =>
  match m with
  | inl e => inl e
  | inr a => k a
  end.

(** A computation that may raise and that reads and advances the global
    random state [G].  The state reached before the exception is kept. *)
Definition Py (G A : Type) : Type := G -> Res A * G.

#[global] Instance Py_ret {G} : MRet (Py G) := fun A a g => (inr a, g).
#[global] Instance Py_bind {G} : MBind (Py G) := fun A B k m g =>
  match m g with
  | (inl e, g') => (inl e, g')
  | (inr a, g') => k a g'
  end.

(** A computation that leaves the random state alone. *)
Definition lift {G A} (r : Res A) : Py G A := fun g => (r, g).

(** [for x in xs: s = body(x, s)] *)
Fixpoint for_each {G X S} (xs : list X) (body : X -> S -> Py G S) (s : S)
  : Py G S :=
  match xs with
  | [] => mret s
  | x :: xs' => s' ← body x s; for_each xs' body s'
  end.

(** Python's [range(a, b)]. *)
Definition range (a b : Z) : list Z := seqZ a (b - a).

(** ** numpy arrays *)

Section Arrays.
Context {F : Type} `{Float64 F}.

(** [np.zeros(n)], [np.ones(n)]: a negative dimension is a ValueError. *)
Definition np_zeros (n : Z) : Res (list F) :=
  if n <? 0 then inl ValueError else inr (replicate (Z.to_nat n) (of_int 0)).

Definition np_ones (n : Z) : Res (list F) :=
  if n <? 0 then inl ValueError else inr (replicate (Z.to_nat n) (of_int 1)).

(** Integer indexing: a negative index counts from the end, an index out
    of bounds is an IndexError. *)
Definition norm_index (a : list F) (i : Z) : Res nat :=
  let n := Z.of_nat (length a) in
  let j := if i <? 0 then i + n else i in
  if (0 <=? j) && (j <? n) then inr (Z.to_nat j) else inl IndexError.

(** [a[i]] *)
Definition getitem (a : list F) (i : Z) : Res F :=
  j ← norm_index a i;
  match a !! j with
  | Some x => inr x
  | None => inl IndexError
  end.

(** [a[i] = x] *)
Definition setitem (a : list F) (i : Z) (x : F) : Res (list F) :=
  j ← norm_index a i;
  inr (<[j := x]> a).

(** [a / w] for an array [a] and a Python int [w]. *)
Definition array_div_int (a : list F) (w : Z) : list F :=
  (fun x => fdiv x (of_int w)) <$> a.

(** The inner product numpy accumulates for one output of a correlation,
    summed here from the left starting at 0.0. *)
Definition dot (xs ks : list F) : F :=
  foldl (fun acc xk => fadd acc (fmul xk.1 xk.2)) (of_int 0) (zip xs ks).

(** [multiarray.correlate(a, k, 'valid')] for [length k <= length a]:
    one inner product per position where [k] overlaps [a] completely. *)
Definition correlate_valid (a k : list F) : list F :=
  (fun i => dot (take (length k) (drop i a)) k)
    <$> seq 0 (length a - length k + 1).

(** [np.convolve(a, v, mode='valid')]: the longer operand becomes the
    signal, an empty operand is a ValueError, and the convolution is the
    correlation with the reversed kernel. *)
Definition np_convolve_valid (a v : list F) : Res (list F) :=
  let '(a, v) := if (length a <? length v)%nat then (v, a) else (a, v) in
  if (length a =? 0)%nat then inl ValueError
  else if (length v =? 0)%nat then inl ValueError
  else inr (correlate_valid a (reverse v)).

(** ** moving_average (lines 21-23) *)
Definition moving_average (series : list F) (window_size : Z)
  : Res (list F) :=
  ones ← np_ones window_size;
  let window := array_div_int ones window_size in
  np_convolve_valid series window.

End Arrays.

(** ** generate_markov_chain (lines 9-18) *)

Section Generator.
Context {F G : Type} `{Float64 F} `{RandomState F G}.

(** [np.random.seed(seed)] for a Python int: accepted iff
    [0 <= seed <= 2**32 - 1], otherwise a ValueError and the state is
    left as it was. *)
Definition np_random_seed (seed : Z) : Py G unit := fun g =>
  if (0 <=? seed) && (seed <=? 4294967295)
  then (inr tt, init_by_seed seed)
  else (inl ValueError, g).

(** [np.random.randn()] *)
Definition np_random_randn : Py G F := fun g =>
  let '(x, g') := randn_draw g in (inr x, g').

Definition generate_markov_chain
    (num_points : Z) (alpha : F) (random_seed : option Z) : Py G (list F) :=
  _ ← match random_seed with
      | Some seed => np_random_seed seed
      | None => mret tt
      end;
  series ← lift (np_zeros num_points);
  x ← np_random_randn;
  series ← lift (setitem series 0 x);
  for_each (range 1 num_points)
    (fun t series =>
       prev ← lift (getitem series (t - 1));
       e ← np_random_randn;
       lift (setitem series t (fadd (fmul alpha prev) e)))
    series.

End Generator.

(** ** Reference functions for the generator *)

Section GeneratorSpec.
Context {F G : Type} `{Float64 F} `{RandomState F G}.

(** The random state after [k] calls of [np.random.randn()]. *)
Definition advance (k : nat) (g : G) : G :=
  Nat.iter k (fun g' => (randn_draw g').2) g.

(** The value of the [k]-th call (counted from 0) made from state [g]. *)
Definition noise (g : G) (k : nat) : F := (randn_draw (advance k g)).1.

(** The first [n] draws from [g], and the state they leave. *)
Fixpoint draws (n : nat) (g : G) : list F * G :=
  match n with
  | O => ([], g)
  | S n' =>
      let '(x, g1) := randn_draw g in
      let '(xs, g2) := draws n' g1 in
      (x :: xs, g2)
  end.

(** The AR(1) recurrence continued from [prev] with innovations [es]. *)
Fixpoint ar1_from (alpha prev : F) (es : list F) : list F :=
  match es with
  | [] => []
  | e :: es' =>
      let x := fadd (fmul alpha prev) e in
      x :: ar1_from alpha x es'
  end.

Definition ar1 (alpha : F) (es : list F) : list F :=
  match es with
  | [] => []
  | e0 :: es' => e0 :: ar1_from alpha e0 es'
  end.

(** The state a call starts drawing from. *)
Definition start_state (random_seed : option Z) (g : G) : G :=
  match random_seed with
  | Some seed => init_by_seed seed
  | None => g
  end.

(** The seeds [np.random.seed] accepts; no seed at all is fine too. *)
Definition seed_ok (random_seed : option Z) : bool :=
  match random_seed with
  | Some seed => (0 <=? seed) && (seed <=? 4294967295)
  | None => true
  end.

(** The trajectory a successful call returns. *)
Definition trajectory (num_points : Z) (alpha : F) (g0 : G) : list F :=
  ar1 alpha (draws (Z.to_nat num_points) g0).1.

(** What [generate_markov_chain] returns or raises, read off the code:
    a rejected seed raises in [np.random.seed]; a negative size raises in
    [np.zeros]; size 0 raises at [series[0] = ...]; otherwise the
    trajectory is returned. *)
Definition outcome (num_points : Z) (alpha : F) (random_seed : option Z)
    (g : G) : Res (list F) :=
  if negb (seed_ok random_seed) then inl ValueError
  else if num_points <? 0 then inl ValueError
  else if num_points =? 0 then inl IndexError
  else inr (trajectory num_points alpha (start_state random_seed g)).

End GeneratorSpec.

(** ** The coefficient table and series_dict (lines 33-37) *)

(** A numeric literal of [a_values]: a Python int, or a float written with
    one fractional digit ([PyFloat m] is the literal [m/10]). *)
Inductive py_num : Type :=
  | PyInt (n : Z)
  | PyFloat (tenths : Z).

(** What an f-string inserts for [{a}]: [str(a)].  For a float with one
    fractional digit below 1e16 that is sign, integer part, point, digit. *)
Definition py_str (a : py_num) : string :=
  match a with
  | PyInt n => pretty n
  | PyFloat m =>
      (if m <? 0 then "-" else "")
        +:+ pretty (Z.abs m / 10) +:+ "." +:+ pretty (Z.abs m mod 10)
  end.

(** [a_values = [0, 0.2, 0.5, 0.8, 1.0, -0.5, -0.8, 1.2]] *)
Definition a_values : list py_num :=
  [PyInt 0; PyFloat 2; PyFloat 5; PyFloat 8; PyFloat 10;
   PyFloat (-5); PyFloat (-8); PyFloat 12].

(** [f"α = {a}"] *)
Definition label (a : py_num) : string := "α = " +:+ py_str a.

(** A Python dict keyed by strings: entries in insertion order, one entry
    per key. *)
Definition py_dict (V : Type) : Type := list (string * V).

(** [d[k] = v]: an existing key keeps its place and gets the new value, a
    new key goes last. *)
Fixpoint dict_set {V : Type} (d : py_dict V) (k : string) (v : V) : py_dict V :=
  match d with
  | [] => [(k, v)]
  | (k', v') :: d' =>
      if decide (k' = k) then (k', v) :: d' else (k', v') :: dict_set d' k v
  end.

(** [d.keys()] *)
Definition dict_keys {V : Type} (d : py_dict V) : list string := d.*1.

Section Orchestrator.
Context {F G : Type} `{Float64 F} `{RandomState F G}.

(** The float64 a literal denotes when it meets a float64 operand; the
    literal [m/10] is the correctly rounded quotient of [m] by [10]. *)
Definition to_float (a : py_num) : F :=
  match a with
  | PyInt n => of_int n
  | PyFloat m => fdiv (of_int m) (of_int 10)
  end.

(** [{f"α = {a}": generate_markov_chain(num_points, a, random_seed)
      for a in coeffs}] *)
Definition series_dict_over (coeffs : list py_num)
    (num_points random_seed : Z) : Py G (py_dict (list F)) :=
  for_each coeffs
    (fun a d =>
       series ← generate_markov_chain num_points (to_float a)
                  (Some random_seed);
       mret (dict_set d (label a) series))
    [].

Definition series_dict (num_points random_seed : Z)
  : Py G (py_dict (list F)) :=
  series_dict_over a_values num_points random_seed.

(** The entries the comprehension produces when every call returns. *)
Definition series_entries (coeffs : list py_num)
    (num_points random_seed : Z) : py_dict (list F) :=
  (fun a => (label a,
             trajectory num_points (to_float a) (init_by_seed random_seed)))
    <$> coeffs.

End Orchestrator.

(** ** Two arithmetics *)

(** IEEE binary64 with round-to-nearest-even, numpy's float64.  An int
    operand below 2**63 in magnitude is converted exactly when it fits 53
    bits and rounded otherwise. *)
Definition float_of_int (n : Z) : float :=
  if n <? 0 then PrimFloat.opp (PrimFloat.of_uint63 (Uint63.of_Z (- n)))
  else PrimFloat.of_uint63 (Uint63.of_Z n).

#[global] Instance binary64 : Float64 float := {|
  fadd := PrimFloat.add;
  fmul := PrimFloat.mul;
  fdiv := PrimFloat.div;
  of_int := float_of_int
|}.

(** The two values [np.random.randn()] returns first after
    [np.random.seed(0)], and a stream that replays them after every
    seeding. *)
Definition seed0_draws : list float :=
  [1.764052345967664%float; 0.4001572083672233%float].

#[global] Instance replay_stream : RandomState float nat := {|
  init_by_seed := fun _ => 0%nat;
  randn_draw := fun k => (nth k seed0_draws 0%float, S k)
|}.

(** The reals with their field operations: float64 without rounding. *)
#[global] Instance exact_arith : Float64 R := {|
  fadd := Rplus;
  fmul := Rmult;
  fdiv := Rdiv;
  of_int := IZR
|}.

#[global] Instance R_inhabited : Inhabited R := populate 0%R.

(** A small deterministic stream used to run the definitions on concrete
    inputs: the state is a counter and the k-th draw is k. *)
#[global] Instance counter_stream : RandomState R nat := {|
  init_by_seed := fun seed => Z.to_nat seed;
  randn_draw := fun g => (INR g, S g)
|}.

(** ** The per-key loops and the plot axes (lines 40-46, 50-63, 66-74) *)

(** [d[k]]; [None] stands for the KeyError of a missing key. *)
Fixpoint dict_get {V : Type} (d : py_dict V) (k : string) : option V :=
  match d with
  | [] => None
  | (k', v) :: d' => if decide (k' = k) then Some v else dict_get d' k
  end.

(** [pd.DataFrame({"Value": series})] with [df.index.name = "Index"]: one
    column, and the name given to the index. *)
Record data_frame (F : Type) : Type := DataFrame {
  df_index_name : string;
  df_value : list F
}.
Arguments DataFrame {F} _ _.
Arguments df_index_name {F} _.
Arguments df_value {F} _.

(** Lines 40-46: [dfs = {}], then for every item of [series_dict] in
    iteration order, [dfs[key] = df]. *)
Definition dfs_of {F : Type} (sd : py_dict (list F))
  : py_dict (data_frame F) :=
  foldl (fun dfs item => dict_set dfs item.1 (DataFrame "Index" item.2))
    [] sd.

(** [for x in xs: s = body(x, s)] for a body that may raise and does not
    touch the random stream. *)
Fixpoint res_for_each {X S : Type} (xs : list X) (body : X -> S -> Res S)
    (s : S) : Res S :=
  match xs with
  | [] => inr s
  | x :: xs' => s' ← body x s; res_for_each xs' body s'
  end.

(** Lines 49-63: [analysis_results = {}], then for every item of
    [series_dict], [analysis_results[key] = results].  The statistics of
    one series (lines 51-61, nine calls into numpy, scipy and statsmodels
    with the configured [num_lags]) are the parameter [analyze]; any of
    those calls may raise.  The value is the dict of a loop that
    completes, or the exception that ends it; the dict as it stands at a
    raise is [analysis_results_in_place]. *)
Definition analysis_results_of {F A : Type} (analyze : list F -> Res A)
    (sd : py_dict (list F)) : Res (py_dict A) :=
  res_for_each sd
    (fun item acc => results ← analyze item.2; inr (dict_set acc item.1 results))
    [].

(** The same loop with the dict it fills in place: what
    [analysis_results] holds when the loop ends, and the exception that
    ended it, if any.  At a raise the entries stored so far are there. *)
Fixpoint analysis_loop_in_place {F A : Type} (analyze : list F -> Res A)
    (sd : py_dict (list F)) (acc : py_dict A) : py_dict A * option py_exn :=
  match sd with
  | [] => (acc, None)
  | item :: sd' =>
      match analyze item.2 with
      | inl e => (acc, Some e)
      | inr results =>
          analysis_loop_in_place analyze sd' (dict_set acc item.1 results)
      end
  end.

Definition analysis_results_in_place {F A : Type} (analyze : list F -> Res A)
    (sd : py_dict (list F)) : py_dict A * option py_exn :=
  analysis_loop_in_place analyze sd [].

(** The x-coordinates of the two curves of lines 73-74:
    [range(num_points)] for the series and
    [range(window_size-1, num_points)] for the smoothed series. *)
Definition series_x (num_points : Z) : list Z := range 0 num_points.

Definition smoothed_x (window_size num_points : Z) : list Z :=
  range (window_size - 1) num_points.

(** A stand-in for the statistics of one series, used to run the loop on
    concrete inputs: the number of values, refused for an
    empty series. *)
Definition count_values (series : list R) : Res nat :=
  match series with
  | [] => inl ValueError
  | _ => inr (length series)
  end.

(** ** Basic facts *)

Ltac py_unfold :=
  unfold mbind, mret, Py_bind, Py_ret, Res_bind, Res_ret, lift in *.

Section GeneratorFacts.
Context {F G : Type} `{Float64 F} `{RandomState F G}.

Lemma advance_S (k : nat) (g : G) :
  advance (S k) g = advance k (randn_draw g).2.
Proof.
  unfold advance. induction k as [|k IH]; [reflexivity|].
  simpl in *. by rewrite IH.
Qed.

Lemma draws_length (n : nat) (g : G) : length (draws n g).1 = n.
Proof.
  revert g. induction n as [|n IH]; intros g; [reflexivity|].
  simpl. destruct (randn_draw g) as [x g1]. specialize (IH g1).
  destruct (draws n g1) as [xs g2]. simpl in *. by rewrite IH.
Qed.

Lemma draws_lookup (n k : nat) (g : G) :
  (k < n)%nat -> (draws n g).1 !! k = Some (noise g k).
Proof.
  revert k g. induction n as [|n IH]; intros k g Hk; [lia|].
  simpl. destruct (randn_draw g) as [x g1] eqn:Hg.
  destruct k as [|k].
  - destruct (draws n g1) as [xs g2]. unfold noise, advance. simpl.
    by rewrite Hg.
  - specialize (IH k g1). destruct (draws n g1) as [xs g2]. simpl in *.
    rewrite IH by lia. unfold noise. rewrite advance_S, Hg. reflexivity.
Qed.

Lemma draws_state (n : nat) (g : G) : (draws n g).2 = advance n g.
Proof.
  revert g. induction n as [|n IH]; intros g; [reflexivity|].
  rewrite advance_S. simpl. destruct (randn_draw g) as [x g1].
  specialize (IH g1). destruct (draws n g1) as [xs g2]. simpl in *. done.
Qed.

Lemma ar1_from_length (alpha prev : F) (es : list F) :
  length (ar1_from alpha prev es) = length es.
Proof.
  revert prev. induction es as [|e es IH]; intros prev; simpl; [done|].
  by rewrite IH.
Qed.

Lemma ar1_length (alpha : F) (es : list F) :
  length (ar1 alpha es) = length es.
Proof. destruct es; simpl; [done|]. by rewrite ar1_from_length. Qed.

(** Elementwise reading of [ar1_from]: position [t] is [alpha] times the
    element before it plus the innovation at [t]. *)
Lemma ar1_from_step (alpha prev : F) (es : list F) (t : nat) (e : F) :
  es !! t = Some e ->
  exists x,
    (prev :: ar1_from alpha prev es) !! t = Some x /\
    ar1_from alpha prev es !! t = Some (fadd (fmul alpha x) e).
Proof.
  revert prev t. induction es as [|e0 es IH]; intros prev t Ht; [done|].
  destruct t as [|t]; simpl in *.
  - injection Ht as ->. by exists prev.
  - apply (IH (fadd (fmul alpha prev) e0)) in Ht. exact Ht.
Qed.

Lemma ar1_head (alpha : F) (es : list F) : ar1 alpha es !! 0%nat = es !! 0%nat.
Proof. by destruct es. Qed.

Lemma ar1_step (alpha : F) (es : list F) (t : nat) (e : F) :
  (1 <= t)%nat -> es !! t = Some e ->
  exists x,
    ar1 alpha es !! (t - 1)%nat = Some x /\
    ar1 alpha es !! t = Some (fadd (fmul alpha x) e).
Proof.
  intros Ht He. destruct es as [|e0 es]; [done|].
  destruct t as [|t]; [lia|]. simpl in *.
  rewrite Nat.sub_0_r. by apply ar1_from_step.
Qed.

End GeneratorFacts.

(** ** Running the generator *)

Section GeneratorRun.
Context {F G : Type} `{Float64 F} `{RandomState F G}.

Lemma norm_index_in (a : list F) (j : nat) :
  (j < length a)%nat -> norm_index a (Z.of_nat j) = inr j.
Proof.
  intros Hj. unfold norm_index.
  replace (Z.of_nat j <? 0) with false by (symmetry; apply Z.ltb_ge; lia).
  replace (0 <=? Z.of_nat j) with true by (symmetry; apply Z.leb_le; lia).
  replace (Z.of_nat j <? Z.of_nat (length a)) with true
    by (symmetry; apply Z.ltb_lt; lia).
  simpl. by rewrite Nat2Z.id.
Qed.

Lemma getitem_in (a : list F) (j : nat) (x : F) :
  a !! j = Some x -> getitem a (Z.of_nat j) = inr x.
Proof.
  intros Hx. unfold getitem.
  rewrite norm_index_in by (by eapply lookup_lt_Some).
  py_unfold. by rewrite Hx.
Qed.

Lemma setitem_in (a : list F) (j : nat) (x : F) :
  (j < length a)%nat -> setitem a (Z.of_nat j) x = inr (<[j := x]> a).
Proof. intros Hj. unfold setitem. by rewrite norm_index_in. Qed.

(** Writing into an empty array is an IndexError, whatever the index. *)
Lemma setitem_empty (i : Z) (x : F) : setitem [] i x = inl IndexError.
Proof.
  unfold setitem, norm_index. py_unfold.
  change (Z.of_nat (length (@nil F))) with 0.
  destruct (i <? 0) eqn:Hi.
  - apply Z.ltb_lt in Hi.
    destruct (Z.leb_spec 0 (i + 0)); [lia|done].
  - by rewrite Hi, andb_false_r.
Qed.

(** The loop of lines 15-16, started when the array holds [pre ++ [prev]]
    followed by [m] zeros: it fills the zeros with the recurrence and
    leaves the state [m] draws further. *)
Lemma loop_run (alpha : F) (m : nat) (pre : list F) (prev : F) (g : G) :
  for_each (seqZ (Z.of_nat (length pre + 1)) (Z.of_nat m))
    (fun t series =>
       prev' ← lift (getitem series (t - 1));
       e ← np_random_randn;
       lift (setitem series t (fadd (fmul alpha prev') e)))
    ((pre ++ [prev]) ++ replicate m (of_int 0)) g
  = (inr ((pre ++ [prev]) ++ ar1_from alpha prev (draws m g).1),
     (draws m g).2).
Proof.
  revert pre prev g. induction m as [|m IH]; intros pre prev g.
  - simpl. reflexivity.
  - rewrite seqZ_cons by lia. simpl for_each.
    replace (Z.pred (Z.of_nat (S m))) with (Z.of_nat m) by lia.
    replace (Z.succ (Z.of_nat (length pre + 1)))
      with (Z.of_nat (length (pre ++ [prev]) + 1))
      by (rewrite length_app; simpl; lia).
    replace (Z.of_nat (length pre + 1) - 1) with (Z.of_nat (length pre))
      by lia.
    py_unfold. unfold np_random_randn.
    rewrite (getitem_in _ (length pre) prev); cycle 1.
    { rewrite <- app_assoc. rewrite lookup_app_r by lia.
      by rewrite Nat.sub_diag. }
    simpl draws. destruct (randn_draw g) as [e g1].
    rewrite setitem_in; cycle 1.
    { rewrite !length_app. simpl. rewrite length_replicate. lia. }
    replace (length pre + 1)%nat with (length (pre ++ [prev]) + 0)%nat
      by (rewrite length_app; simpl; lia).
    rewrite insert_app_r. simpl.
    specialize (IH (pre ++ [prev]) (fadd (fmul alpha prev) e) g1).
    py_unfold. unfold np_random_randn in IH.
    rewrite (cons_middle _ (pre ++ [prev])), app_assoc.
    rewrite IH.
    destruct (draws m g1) as [es g2]. simpl.
    by rewrite <- (app_assoc (pre ++ [prev]) [_]).
Qed.

(** What one call does, for a positive number of points and an accepted
    seed (or none): it returns the AR(1) recurrence over the first
    [num_points] draws of the starting state. *)
Lemma generate_run (n : nat) (alpha : F) (random_seed : option Z) (g : G) :
  seed_ok random_seed = true ->
  generate_markov_chain (Z.of_nat (S n)) alpha random_seed g
  = (inr (ar1 alpha (draws (S n) (start_state random_seed g)).1),
     (draws (S n) (start_state random_seed g)).2).
Proof.
  intros Hseed. unfold generate_markov_chain.
  set (body := fun (t : Z) (series : list F) => _).
  assert (Hstart :
    (match random_seed with
     | Some seed => np_random_seed seed
     | None => mret tt
     end) g = (inr tt, start_state random_seed g)).
  { destruct random_seed as [seed|]; simpl in *; [|done].
    unfold np_random_seed. by rewrite Hseed. }
  unfold mbind at 1, Py_bind at 1. rewrite Hstart.
  unfold mbind at 1, Py_bind at 1, lift at 1, np_zeros.
  replace (Z.of_nat (S n) <? 0) with false by (symmetry; apply Z.ltb_ge; lia).
  rewrite Nat2Z.id.
  unfold mbind at 1, Py_bind at 1, np_random_randn at 1.
  simpl draws. destruct (randn_draw (start_state random_seed g)) as [x g1].
  unfold mbind at 1, Py_bind at 1, lift at 1.
  rewrite (setitem_in _ 0%nat) by (simpl; lia). simpl.
  unfold range. replace (Z.of_nat (S n) - 1) with (Z.of_nat n) by lia.
  pose proof (loop_run alpha n [] x g1) as Hloop.
  change (Z.of_nat (length (@nil F) + 1)) with 1 in Hloop.
  simpl app in Hloop. subst body. rewrite Hloop.
  by destruct (draws n g1).
Qed.

End GeneratorRun.

(** ** Outcome of a call on every input *)

Section GeneratorOutcome.
Context {F G : Type} `{Float64 F} `{RandomState F G}.

Lemma generate_rejected_seed (num_points : Z) (alpha : F) (seed : Z) (g : G) :
  seed_ok (Some seed) = false ->
  generate_markov_chain num_points alpha (Some seed) g = (inl ValueError, g).
Proof.
  intros Hseed. unfold generate_markov_chain.
  unfold mbind at 1, Py_bind at 1, np_random_seed.
  simpl in Hseed. by rewrite Hseed.
Qed.

Lemma generate_start (num_points : Z) (alpha : F) (random_seed : option Z)
    (g : G) :
  seed_ok random_seed = true ->
  generate_markov_chain num_points alpha random_seed g
  = generate_markov_chain num_points alpha None (start_state random_seed g).
Proof.
  intros Hseed. destruct random_seed as [seed|]; [|done].
  unfold generate_markov_chain.
  unfold mbind at 1 6, Py_bind at 1 6, np_random_seed.
  simpl in Hseed. rewrite Hseed. reflexivity.
Qed.

Lemma generate_negative (num_points : Z) (alpha : F) (g : G) :
  num_points < 0 ->
  generate_markov_chain num_points alpha None g = (inl ValueError, g).
Proof.
  intros Hn. unfold generate_markov_chain, np_zeros. py_unfold.
  by replace (num_points <? 0) with true by (symmetry; apply Z.ltb_lt; lia).
Qed.

(** With [num_points = 0] the right-hand side of line 13 is evaluated, so
    one draw is consumed, and then the store raises. *)
Lemma generate_zero (alpha : F) (g : G) :
  generate_markov_chain 0 alpha None g = (inl IndexError, advance 1 g).
Proof.
  unfold generate_markov_chain, np_zeros, np_random_randn. py_unfold.
  change (0 <? 0) with false. change (Z.to_nat 0) with 0%nat.
  unfold advance. simpl Nat.iter. simpl replicate.
  destruct (randn_draw g) as [x g1]. by rewrite setitem_empty.
Qed.

Lemma generate_positive (num_points : Z) (alpha : F) (g : G) :
  1 <= num_points ->
  generate_markov_chain num_points alpha None g
  = (inr (trajectory num_points alpha g),
     advance (Z.to_nat num_points) g).
Proof.
  intros Hn. unfold trajectory.
  destruct (Z.to_nat num_points) as [|n] eqn:Hnat; [lia|].
  replace num_points with (Z.of_nat (S n)) by lia.
  rewrite (generate_run n alpha None g) by done.
  by rewrite draws_state.
Qed.

Lemma generate_outcome (num_points : Z) (alpha : F) (random_seed : option Z)
    (g : G) :
  (generate_markov_chain num_points alpha random_seed g).1
  = outcome num_points alpha random_seed g.
Proof.
  unfold outcome. destruct (seed_ok random_seed) eqn:Hseed; simpl.
  - rewrite generate_start by done.
    destruct (Z.ltb_spec num_points 0) as [Hneg|Hnn].
    { by rewrite generate_negative. }
    destruct (Z.eqb_spec num_points 0) as [->|Hnz].
    { by rewrite generate_zero. }
    by rewrite generate_positive by lia.
  - destruct random_seed as [seed|]; [|done].
    by rewrite generate_rejected_seed.
Qed.

Lemma trajectory_length (num_points : Z) (alpha : F) (g0 : G) :
  length (trajectory num_points alpha g0) = Z.to_nat num_points.
Proof. unfold trajectory. by rewrite ar1_length, draws_length. Qed.

(** A call returns a trajectory exactly when the size is positive and the
    seed is accepted. *)
Lemma generate_returns (num_points : Z) (alpha : F) (random_seed : option Z)
    (g : G) (tr : list F) :
  (generate_markov_chain num_points alpha random_seed g).1 = inr tr <->
  1 <= num_points /\ seed_ok random_seed = true /\
  tr = trajectory num_points alpha (start_state random_seed g).
Proof.
  rewrite generate_outcome. unfold outcome.
  destruct (seed_ok random_seed); simpl; cycle 1.
  { split; [discriminate | intros (_ & Hs & _); discriminate]. }
  destruct (Z.ltb_spec num_points 0).
  { split; [discriminate | intros (Hn & _); lia]. }
  destruct (Z.eqb_spec num_points 0).
  { split; [discriminate | intros (Hn & _); lia]. }
  split; [intros [= <-]; repeat split; lia | by intros (_ & _ & ->)].
Qed.

Lemma trajectory_head (num_points : Z) (alpha : F) (g0 : G) :
  1 <= num_points -> trajectory num_points alpha g0 !! 0%nat = Some (noise g0 0).
Proof.
  intros Hn. unfold trajectory. rewrite ar1_head. apply draws_lookup. lia.
Qed.

Lemma trajectory_step (num_points : Z) (alpha : F) (g0 : G) (t : nat) :
  (1 <= t)%nat -> Z.of_nat t < num_points ->
  exists x,
    trajectory num_points alpha g0 !! (t - 1)%nat = Some x /\
    trajectory num_points alpha g0 !! t
    = Some (fadd (fmul alpha x) (noise g0 t)).
Proof.
  intros Ht Hn. unfold trajectory. apply ar1_step; [done|].
  apply draws_lookup. lia.
Qed.

End GeneratorOutcome.

(** ** The generator's contract *)

Section GeneratorClaims.
Context {F G : Type} `{Float64 F} `{RandomState F G}.

(** C9.  For [num_points >= 1], whatever trajectory a call returns has
    length exactly [num_points]; and a call does return one whenever the
    seed is unset or accepted by [np.random.seed]. *)
Theorem generate_length (num_points : Z) (alpha : F) (random_seed : option Z)
    (g : G) :
  1 <= num_points ->
  (forall tr,
     (generate_markov_chain num_points alpha random_seed g).1 = inr tr ->
     Z.of_nat (length tr) = num_points) /\
  (seed_ok random_seed = true ->
   exists tr, (generate_markov_chain num_points alpha random_seed g).1 = inr tr).
Proof.
  intros Hn. split.
  - intros tr Hrun. apply generate_returns in Hrun as (_ & _ & ->).
    rewrite trajectory_length. lia.
  - intros Hseed. eexists. apply generate_returns. eauto.
Qed.

(** C1.  For [num_points >= 1] the returned trajectory starts with the
    first draw of the (seeded) random stream, and each later element [t]
    is [alpha] times element [t-1] plus the [t]-th draw of that stream.
    The draws are successive calls of [np.random.randn()]; they do not
    depend on [alpha]. *)
Theorem generate_recurrence (num_points : Z) (alpha : F)
    (random_seed : option Z) (g : G) :
  1 <= num_points ->
  (forall tr,
     (generate_markov_chain num_points alpha random_seed g).1 = inr tr ->
     tr !! 0%nat = Some (noise (start_state random_seed g) 0) /\
     forall t : nat,
       (1 <= t)%nat -> Z.of_nat t < num_points ->
       exists x,
         tr !! (t - 1)%nat = Some x /\
         tr !! t
         = Some (fadd (fmul alpha x) (noise (start_state random_seed g) t))) /\
  (seed_ok random_seed = true ->
   exists tr, (generate_markov_chain num_points alpha random_seed g).1 = inr tr).
Proof.
  intros Hn. split.
  - intros tr Hrun. apply generate_returns in Hrun as (_ & _ & ->).
    split; [by apply trajectory_head|].
    intros t Ht1 Htn. by apply trajectory_step.
  - intros Hseed. eexists. apply generate_returns. eauto.
Qed.

(** C3.  Two calls with the same arguments and a seed have the same
    outcome, whatever the random state was before each call; for
    [num_points >= 1] and an accepted seed that outcome is one and the same
    trajectory. *)
Theorem generate_deterministic (num_points : Z) (alpha : F) (seed : Z)
    (g1 g2 : G) :
  (generate_markov_chain num_points alpha (Some seed) g1).1
  = (generate_markov_chain num_points alpha (Some seed) g2).1 /\
  (1 <= num_points -> seed_ok (Some seed) = true ->
   exists tr,
     (generate_markov_chain num_points alpha (Some seed) g1).1 = inr tr /\
     (generate_markov_chain num_points alpha (Some seed) g2).1 = inr tr).
Proof.
  split.
  - by rewrite !generate_outcome.
  - intros Hn Hseed. eexists. split; apply generate_returns; eauto.
Qed.

(** C6, as the code has it.  A seed outside [0 .. 2**32-1] raises a
    ValueError whatever [num_points] is.  With the seed unset or accepted:
    a negative [num_points] raises a ValueError, [num_points = 0] raises an
    IndexError, and [num_points >= 1] returns a trajectory. *)
Theorem generate_error_conditions (num_points : Z) (alpha : F)
    (random_seed : option Z) (g : G) :
  (seed_ok random_seed = false ->
   (generate_markov_chain num_points alpha random_seed g).1 = inl ValueError) /\
  (seed_ok random_seed = true -> num_points < 0 ->
   (generate_markov_chain num_points alpha random_seed g).1 = inl ValueError) /\
  (seed_ok random_seed = true -> num_points = 0 ->
   (generate_markov_chain num_points alpha random_seed g).1 = inl IndexError) /\
  (seed_ok random_seed = true -> 1 <= num_points ->
   exists tr,
     (generate_markov_chain num_points alpha random_seed g).1 = inr tr).
Proof.
  rewrite generate_outcome. unfold outcome. repeat split.
  - by intros ->.
  - intros -> Hn. simpl.
    by replace (num_points <? 0) with true by (symmetry; apply Z.ltb_lt; lia).
  - by intros -> ->.
  - intros -> Hn. simpl.
    replace (num_points <? 0) with false by (symmetry; apply Z.ltb_ge; lia).
    replace (num_points =? 0) with false by (symmetry; apply Z.eqb_neq; lia).
    eauto.
Qed.

End GeneratorClaims.

(** ** The smoother: shape of the result *)

Section SmootherFacts.
Context {F : Type} `{Float64 F}.

Lemma correlate_valid_length (a k : list F) :
  length (correlate_valid a k) = (length a - length k + 1)%nat.
Proof. unfold correlate_valid. by rewrite length_fmap, length_seq. Qed.

Lemma correlate_valid_lookup (a k : list F) (i : nat) :
  (i < length a - length k + 1)%nat ->
  correlate_valid a k !! i = Some (dot (take (length k) (drop i a)) k).
Proof.
  intros Hi. unfold correlate_valid.
  rewrite list_lookup_fmap, lookup_seq_lt by done. reflexivity.
Qed.

(** Line 22 builds [window_size] copies of [1 / window_size]. *)
Lemma moving_average_window (series : list F) (window_size : Z) :
  0 <= window_size ->
  moving_average series window_size
  = np_convolve_valid series
      (replicate (Z.to_nat window_size)
         (fdiv (of_int 1) (of_int window_size))).
Proof.
  intros Hw. unfold moving_average, np_ones, array_div_int. py_unfold.
  replace (window_size <? 0) with false by (symmetry; apply Z.ltb_ge; lia).
  by rewrite fmap_replicate.
Qed.

Lemma moving_average_negative (series : list F) (window_size : Z) :
  window_size < 0 -> moving_average series window_size = inl ValueError.
Proof.
  intros Hw. unfold moving_average, np_ones. py_unfold.
  by replace (window_size <? 0) with true by (symmetry; apply Z.ltb_lt; lia).
Qed.

(** Inside the contract [1 <= window_size <= len(series)] the series is the
    signal and the window is the kernel. *)
Lemma moving_average_valid (series : list F) (window_size : Z) :
  1 <= window_size <= Z.of_nat (length series) ->
  moving_average series window_size
  = inr (correlate_valid series
           (replicate (Z.to_nat window_size)
              (fdiv (of_int 1) (of_int window_size)))).
Proof.
  intros Hw. rewrite moving_average_window by lia.
  unfold np_convolve_valid. rewrite length_replicate.
  replace (length series <? Z.to_nat window_size)%nat with false
    by (symmetry; apply Nat.ltb_ge; lia).
  replace (length series =? 0)%nat with false
    by (symmetry; apply Nat.eqb_neq; lia).
  rewrite length_replicate.
  replace (Z.to_nat window_size =? 0)%nat with false
    by (symmetry; apply Nat.eqb_neq; lia).
  by rewrite reverse_replicate.
Qed.

(** A window longer than a non-empty series: [np.convolve] swaps its
    operands, so the window is the signal and the series the kernel. *)
Lemma moving_average_swapped (series : list F) (window_size : Z) :
  Z.of_nat (length series) < window_size -> series <> [] ->
  moving_average series window_size
  = inr (correlate_valid
           (replicate (Z.to_nat window_size)
              (fdiv (of_int 1) (of_int window_size)))
           (reverse series)).
Proof.
  intros Hw Hs. rewrite moving_average_window by lia.
  unfold np_convolve_valid. rewrite length_replicate.
  replace (length series <? Z.to_nat window_size)%nat with true
    by (symmetry; apply Nat.ltb_lt; lia).
  rewrite length_replicate.
  replace (Z.to_nat window_size =? 0)%nat with false
    by (symmetry; apply Nat.eqb_neq; lia).
  destruct series as [|x series]; [done|]. reflexivity.
Qed.

(** An empty series is rejected by [np.convolve], whatever the window. *)
Lemma moving_average_empty (window_size : Z) :
  moving_average (@nil F) window_size = inl ValueError.
Proof.
  destruct (Z.ltb_spec window_size 0) as [Hneg|Hnn].
  { by apply moving_average_negative. }
  rewrite moving_average_window by done.
  unfold np_convolve_valid. rewrite length_replicate. simpl.
  destruct (Z.to_nat window_size) as [|n]; reflexivity.
Qed.

(** C5, as the code has it.  For a window longer than the series the
    function raises nothing when the series is non-empty: it returns
    [window_size - len(series) + 1] values.  Only the empty series is
    rejected, with a ValueError. *)
Theorem moving_average_long_window (series : list F) (window_size : Z) :
  Z.of_nat (length series) < window_size ->
  (series <> [] ->
   exists out,
     moving_average series window_size = inr out /\
     Z.of_nat (length out) = window_size - Z.of_nat (length series) + 1) /\
  (series = [] -> moving_average series window_size = inl ValueError).
Proof.
  intros Hw. split.
  - intros Hs. eexists. split; [by apply moving_average_swapped|].
    rewrite correlate_valid_length, length_replicate, length_reverse. lia.
  - intros ->. apply moving_average_empty.
Qed.

End SmootherFacts.

(** ** The smoother with window 1 *)


(** ** The orchestrator's mapping *)

Lemma a_values_labels :
  label <$> a_values
  = ["α = 0"; "α = 0.2"; "α = 0.5"; "α = 0.8"; "α = 1.0";
     "α = -0.5"; "α = -0.8"; "α = 1.2"].
Proof. vm_compute. reflexivity. Qed.

Lemma a_values_labels_NoDup : NoDup (label <$> a_values).
Proof. rewrite a_values_labels. compute_done. Qed.

Section OrchestratorFacts.
Context {F G : Type} `{Float64 F} `{RandomState F G}.

Lemma dict_set_fresh {V : Type} (d : py_dict V) (k : string) (v : V) :
  k ∉ dict_keys d -> dict_set d k v = d ++ [(k, v)].
Proof.
  unfold dict_keys. induction d as [|[k' v'] d IH]; intros Hk; simpl; [done|].
  rewrite fmap_cons, not_elem_of_cons in Hk. destruct Hk as [Hne Hk].
  rewrite decide_False by done. by rewrite IH.
Qed.

Lemma series_entries_keys (coeffs : list py_num) (num_points random_seed : Z) :
  dict_keys (series_entries (F := F) (G := G) coeffs num_points random_seed)
  = label <$> coeffs.
Proof.
  unfold dict_keys, series_entries. rewrite <- list_fmap_compose.
  reflexivity.
Qed.

(** The comprehension over coefficients with pairwise different labels,
    when every call returns: one entry per coefficient, appended in order. *)
Lemma series_dict_over_run (coeffs : list py_num) (num_points random_seed : Z)
    (d0 : py_dict (list F)) (g : G) :
  1 <= num_points -> seed_ok (Some random_seed) = true ->
  NoDup (dict_keys d0 ++ (label <$> coeffs)) ->
  (for_each coeffs
     (fun a d =>
        series ← generate_markov_chain num_points (to_float a)
                   (Some random_seed);
        mret (dict_set d (label a) series))
     d0 g).1
  = inr (d0 ++ series_entries coeffs num_points random_seed).
Proof.
  intros Hn Hseed. revert d0 g.
  induction coeffs as [|a coeffs IH]; intros d0 g Hdup.
  - simpl. by rewrite app_nil_r.
  - simpl for_each. unfold mbind at 1, Py_bind at 1.
    unfold mbind at 1, Py_bind at 1.
    destruct (generate_markov_chain num_points (to_float a)
                (Some random_seed) g) as [r g1] eqn:Hcall.
    assert (r = inr (trajectory num_points (to_float a)
                       (init_by_seed random_seed))) as ->.
    { change r with (r, g1).1. rewrite <- Hcall.
      apply generate_returns. eauto. }
    unfold mret at 1, Py_ret at 1.
    rewrite fmap_cons in Hdup.
    rewrite dict_set_fresh; cycle 1.
    { apply NoDup_app in Hdup as (_ & Hdis & _).
      intros Hin. apply (Hdis _ Hin). left. }
    rewrite IH; cycle 1.
    { unfold dict_keys. rewrite fmap_app. simpl.
      rewrite <- app_assoc. exact Hdup. }
    simpl. by rewrite <- app_assoc.
Qed.

(** When the first call raises, the comprehension raises the same. *)
Lemma series_dict_over_raises (a : py_num) (coeffs : list py_num)
    (num_points random_seed : Z) (g : G) (e : py_exn) :
  (generate_markov_chain num_points (to_float a) (Some random_seed) g).1
  = inl e ->
  (series_dict_over (a :: coeffs) num_points random_seed g).1 = inl e.
Proof.
  intros Hcall. unfold series_dict_over. simpl for_each.
  unfold mbind at 1, Py_bind at 1. unfold mbind at 1, Py_bind at 1.
  destruct (generate_markov_chain num_points (to_float a)
              (Some random_seed) g) as [r g1].
  simpl in Hcall. by subst r.
Qed.

(** C10.  Whenever [series_dict] is built, it has one entry per
    coefficient of [a_values], under pairwise different keys, and its keys
    in iteration order are the labels of [a_values] in list order.  It is
    built whenever [num_points >= 1] and the seed is accepted. *)
Theorem series_dict_keys (num_points random_seed : Z) (g : G) :
  (forall d,
     (series_dict num_points random_seed g).1 = inr d ->
     dict_keys d = label <$> a_values /\
     length d = length a_values /\
     NoDup (dict_keys d)) /\
  (1 <= num_points -> seed_ok (Some random_seed) = true ->
   exists d, (series_dict num_points random_seed g).1 = inr d).
Proof.
  assert (Hrun : 1 <= num_points -> seed_ok (Some random_seed) = true ->
    (series_dict num_points random_seed g).1
    = inr (series_entries a_values num_points random_seed)).
  { intros Hn Hseed. unfold series_dict, series_dict_over.
    rewrite series_dict_over_run; [done..|].
    simpl. apply a_values_labels_NoDup. }
  split; [|intros Hn Hseed; rewrite Hrun by done; eauto].
  intros d Hd.
  destruct (decide (1 <= num_points /\ seed_ok (Some random_seed) = true))
    as [[Hn Hseed]|Hbad].
  - rewrite Hrun in Hd by done.
    assert (d = series_entries (G := G) a_values num_points random_seed)
      as -> by congruence.
    rewrite series_entries_keys. split; [done|]. split.
    + unfold series_entries. by rewrite length_fmap.
    + apply a_values_labels_NoDup.
  - exfalso.
    destruct ((generate_markov_chain num_points (to_float (PyInt 0))
                 (Some random_seed) g).1) as [e|tr] eqn:Hcall.
    + unfold series_dict, a_values in Hd.
      rewrite (series_dict_over_raises _ _ _ _ _ e Hcall) in Hd. done.
    + apply generate_returns in Hcall as (Hn & Hseed & _). tauto.
Qed.

End OrchestratorFacts.

(** ** The theorems at concrete inputs *)

(** Three points, coefficient 1/2, seed 42: a trajectory of length 3. *)
Lemma generate_length_example :
  1 <= 3 /\ seed_ok (Some 42) = true /\
  exists tr : list R,
    (generate_markov_chain 3 (1 / 2)%R (Some 42) 0%nat).1 = inr tr /\
    Z.of_nat (length tr) = 3.
Proof.
  destruct (generate_length 3 (1 / 2)%R (Some 42) 0%nat) as [Hlen Hret];
    [lia|].
  destruct (Hret eq_refl) as [tr Htr].
  split; [lia|]. split; [reflexivity|].
  exists tr. split; [exact Htr | exact (Hlen tr Htr)].
Defined.

(** Same call: element 2 is 1/2 times element 1 plus the draw number 2. *)
Lemma generate_recurrence_example :
  1 <= 3 /\ seed_ok (Some 42) = true /\
  exists (tr : list R) (x : R),
    (generate_markov_chain 3 (1 / 2)%R (Some 42) 0%nat).1 = inr tr /\
    tr !! 0%nat = Some (noise (init_by_seed 42) 0) /\
    tr !! 1%nat = Some x /\
    tr !! 2%nat = Some (1 / 2 * x + noise (init_by_seed 42) 2)%R.
Proof.
  destruct (generate_recurrence 3 (1 / 2)%R (Some 42) 0%nat) as [Hrec Hret];
    [lia|].
  destruct (Hret eq_refl) as [tr Htr].
  destruct (Hrec tr Htr) as [Hhead Hstep].
  destruct (Hstep 2%nat) as (x & Hx & Ht); [lia..|].
  split; [lia|]. split; [reflexivity|].
  exists tr, x. repeat split; assumption.
Defined.

(** Two calls from different random states, same arguments. *)
Lemma generate_deterministic_example :
  1 <= 3 /\ seed_ok (Some 42) = true /\
  exists tr : list R,
    (generate_markov_chain 3 (1 / 2)%R (Some 42) 0%nat).1 = inr tr /\
    (generate_markov_chain 3 (1 / 2)%R (Some 42) 7%nat).1 = inr tr.
Proof.
  destruct (generate_deterministic 3 (1 / 2)%R 42 0%nat 7%nat) as [_ Hret].
  split; [lia|]. split; [reflexivity|].
  exact (Hret ltac:(lia) eq_refl).
Defined.

(** A negative seed with one point requested: the call raises although
    [num_points >= 1].  And with no point requested the error is the
    IndexError of the store on line 13, not an argument check. *)
Lemma generate_negative_seed_raises :
  (generate_markov_chain 1 0%R (Some (-1)) 0%nat).1 = inl ValueError /\
  (generate_markov_chain 0 0%R (Some 42) 0%nat).1 = inl IndexError.
Proof. split; reflexivity. Qed.

(** The four cases of the error conditions. *)
Lemma generate_error_conditions_example :
  (generate_markov_chain 5 0%R (Some 4294967296) 0%nat).1 = inl ValueError /\
  (generate_markov_chain (-2) 0%R (Some 42) 0%nat).1 = inl ValueError /\
  (generate_markov_chain 0 0%R (Some 42) 0%nat).1 = inl IndexError /\
  exists tr : list R,
    (generate_markov_chain 5 0%R (Some 42) 0%nat).1 = inr tr.
Proof.
  split; [|split; [|split]].
  - destruct (generate_error_conditions 5 0%R (Some 4294967296) 0%nat)
      as (Hseed & _).
    exact (Hseed eq_refl).
  - destruct (generate_error_conditions (-2) 0%R (Some 42) 0%nat)
      as (_ & Hneg & _).
    apply Hneg; [reflexivity | lia].
  - destruct (generate_error_conditions 0 0%R (Some 42) 0%nat)
      as (_ & _ & Hzero & _).
    apply Hzero; reflexivity.
  - destruct (generate_error_conditions 5 0%R (Some 42) 0%nat)
      as (_ & _ & _ & Hpos).
    apply Hpos; [reflexivity | lia].
Defined.

(** A window of two over a single value: no error, two values back. *)
Lemma moving_average_long_window_returns :
  moving_average [1%R] 2 = inr [(0 + 1 / 2 * 1)%R; (0 + 1 / 2 * 1)%R].
Proof. rewrite moving_average_swapped by (simpl; lia || done). reflexivity. Qed.

Lemma moving_average_long_window_example :
  Z.of_nat (length [1%R; 2%R]) < 5 /\
  (exists out,
     moving_average [1%R; 2%R] 5 = inr out /\
     Z.of_nat (length out) = 5 - Z.of_nat (length [1%R; 2%R]) + 1) /\
  moving_average (@nil R) 5 = inl ValueError.
Proof.
  split; [simpl; lia|]. split.
  - apply (moving_average_long_window [1%R; 2%R] 5); [simpl; lia | done].
  - apply (moving_average_long_window (@nil R) 5); [simpl; lia | done].
Defined.


(** The slider's default size and seed. *)
Lemma series_dict_keys_example :
  1 <= 100 /\ seed_ok (Some 42) = true /\
  exists d : py_dict (list R),
    (series_dict 100 42 0%nat).1 = inr d /\
    dict_keys d = label <$> a_values /\
    length d = length a_values /\
    NoDup (dict_keys d).
Proof.
  destruct (series_dict_keys (F := R) 100 42 0%nat) as [Hkeys Hret].
  destruct (Hret ltac:(lia) eq_refl) as [d Hd].
  split; [lia|]. split; [reflexivity|].
  exists d. split; [exact Hd | exact (Hkeys d Hd)].
Defined.

(** ** More about the generator: the random stream it leaves behind *)

Section GeneratorStream.
Context {F G : Type} `{Float64 F} `{RandomState F G}.

Lemma advance_add (n k : nat) (g : G) :
  advance k (advance n g) = advance (n + k) g.
Proof.
  revert g. induction n as [|n IH]; intros g; [reflexivity|].
  change (S n + k)%nat with (S (n + k)). rewrite !advance_S. apply IH.
Qed.

Lemma noise_advance (n k : nat) (g : G) :
  noise (advance n g) k = noise g (n + k).
Proof. unfold noise. by rewrite advance_add. Qed.

Lemma draws_take (n m : nat) (g : G) :
  (n <= m)%nat -> take n (draws m g).1 = (draws n g).1.
Proof.
  revert m g. induction n as [|n IH]; intros m g Hnm; [by rewrite take_0|].
  destruct m as [|m]; [lia|]. simpl.
  destruct (randn_draw g) as [x g1]. specialize (IH m g1).
  destruct (draws m g1) as [xs g2]. destruct (draws n g1) as [ys g3].
  simpl in *. by rewrite IH by lia.
Qed.

Lemma ar1_from_take (alpha prev : F) (es : list F) (n : nat) :
  take n (ar1_from alpha prev es) = ar1_from alpha prev (take n es).
Proof.
  revert prev es. induction n as [|n IH]; intros prev es.
  - by rewrite !take_0.
  - destruct es as [|e es]; simpl; [done|]. by rewrite IH.
Qed.

Lemma ar1_take (alpha : F) (es : list F) (n : nat) :
  take n (ar1 alpha es) = ar1 alpha (take n es).
Proof.
  destruct n as [|n]; [by rewrite !take_0|].
  destruct es as [|e es]; simpl; [done|]. by rewrite ar1_from_take.
Qed.

(** X1.  A call that returns leaves the global random stream exactly
    [num_points] draws past the state it started drawing from: the seeded
    state when a seed is given, the incoming state otherwise. *)
Theorem generate_advances_stream (num_points : Z) (alpha : F)
    (random_seed : option Z) (g : G) :
  1 <= num_points -> seed_ok random_seed = true ->
  (generate_markov_chain num_points alpha random_seed g).2
  = advance (Z.to_nat num_points) (start_state random_seed g).
Proof.
  intros Hn Hseed. rewrite generate_start by done.
  by rewrite generate_positive by done.
Qed.

(** X2.  What a failing call does to the global stream.  A rejected seed
    leaves it untouched; a negative [num_points] with an accepted seed has
    already reseeded it; [num_points = 0] has reseeded it and consumed one
    draw before the store on line 13 raises. *)
Theorem generate_failure_state (num_points : Z) (alpha : F)
    (random_seed : option Z) (g : G) :
  (seed_ok random_seed = false ->
   (generate_markov_chain num_points alpha random_seed g).2 = g) /\
  (seed_ok random_seed = true -> num_points < 0 ->
   (generate_markov_chain num_points alpha random_seed g).2
   = start_state random_seed g) /\
  (seed_ok random_seed = true -> num_points = 0 ->
   (generate_markov_chain num_points alpha random_seed g).2
   = advance 1 (start_state random_seed g)).
Proof.
  repeat split.
  - intros Hseed. destruct random_seed as [seed|]; [|done].
    by rewrite generate_rejected_seed.
  - intros Hseed Hn. rewrite generate_start by done.
    by rewrite generate_negative.
  - intros Hseed ->. rewrite generate_start by done.
    by rewrite generate_zero.
Qed.

(** X3.  Without a seed a second call continues the stream where the
    first one stopped: after a call for [n1] points, the trajectory of the
    next call starts with draw number [n1] of the original state and uses
    draw [n1 + t] at index [t]. *)
Theorem generate_unseeded_continues (n1 n2 : Z) (a b : F) (g : G) :
  1 <= n1 -> 1 <= n2 ->
  exists tr1 tr2,
    (tr1 ← generate_markov_chain n1 a None;
     tr2 ← generate_markov_chain n2 b None;
     mret (tr1, tr2)) g
    = (inr (tr1, tr2), advance (Z.to_nat n1 + Z.to_nat n2) g) /\
    tr1 !! 0%nat = Some (noise g 0) /\
    tr2 !! 0%nat = Some (noise g (Z.to_nat n1)) /\
    forall t : nat,
      (1 <= t)%nat -> Z.of_nat t < n2 ->
      exists x,
        tr2 !! (t - 1)%nat = Some x /\
        tr2 !! t = Some (fadd (fmul b x) (noise g (Z.to_nat n1 + t))).
Proof.
  intros Hn1 Hn2.
  exists (trajectory n1 a g), (trajectory n2 b (advance (Z.to_nat n1) g)).
  split; [|split; [|split]].
  - unfold mbind at 1, Py_bind at 1. rewrite generate_positive by done.
    unfold mbind at 1, Py_bind at 1. rewrite generate_positive by done.
    by rewrite advance_add.
  - by apply trajectory_head.
  - rewrite trajectory_head by done. by rewrite noise_advance, Nat.add_0_r.
  - intros t Ht1 Ht2.
    destruct (trajectory_step n2 b (advance (Z.to_nat n1) g) t Ht1 Ht2)
      as (x & Hx & Ht).
    exists x. split; [done|]. by rewrite Ht, noise_advance.
Qed.

(** X4.  Asking for more points only appends: with the same coefficient
    and seed, the trajectory of [n] points is the first [n] elements of the
    trajectory of [m >= n] points. *)
Theorem generate_prefix (n m : Z) (alpha : F) (seed : Z) (g1 g2 : G)
    (trn trm : list F) :
  1 <= n <= m ->
  (generate_markov_chain n alpha (Some seed) g1).1 = inr trn ->
  (generate_markov_chain m alpha (Some seed) g2).1 = inr trm ->
  take (Z.to_nat n) trm = trn.
Proof.
  intros Hnm Hn Hm.
  apply generate_returns in Hn as (_ & _ & ->).
  apply generate_returns in Hm as (_ & _ & ->).
  unfold trajectory. simpl start_state.
  rewrite ar1_take, draws_take by lia. reflexivity.
Qed.

End GeneratorStream.

(** ** The generator with coefficient 0 *)

Section GeneratorExact.
Context {G : Type} `{RandomState R G}.


End GeneratorExact.

(** ** More about the smoother *)

Section SmootherErrors.
Context {F : Type} `{Float64 F}.

Lemma moving_average_zero (series : list F) :
  moving_average series 0 = inl ValueError.
Proof.
  rewrite moving_average_window by lia. unfold np_convolve_valid. simpl.
  destruct series; reflexivity.
Qed.

(** X7.  The smoother raises exactly when [window_size <= 0] or the series
    is empty, and then always a ValueError; in every other case it returns
    [|len(series) - window_size| + 1] values. *)
Theorem moving_average_outcome (series : list F) (window_size : Z) :
  (window_size <= 0 \/ series = [] ->
   moving_average series window_size = inl ValueError) /\
  (1 <= window_size -> series <> [] ->
   exists out,
     moving_average series window_size = inr out /\
     Z.of_nat (length out)
     = Z.abs (Z.of_nat (length series) - window_size) + 1).
Proof.
  split.
  - intros [Hw | ->]; [|apply moving_average_empty].
    destruct (Z.eq_dec window_size 0) as [->|Hnz].
    + apply moving_average_zero.
    + apply moving_average_negative. lia.
  - intros Hw Hs.
    destruct (Z.le_gt_cases window_size (Z.of_nat (length series)))
      as [Hle|Hgt].
    + eexists. split; [by apply moving_average_valid|].
      rewrite correlate_valid_length, length_replicate. lia.
    + eexists. split; [apply moving_average_swapped; [lia|done]|].
      rewrite correlate_valid_length, length_replicate, length_reverse. lia.
Qed.

End SmootherErrors.

(** ** The two curves of one plot (lines 66-74) *)

Section PlotAxes.
Context {F G : Type} `{Float64 F} `{RandomState F G}.

(** X12.  For a generated series the first curve always has as many
    x-coordinates as values.  The smoothed curve does too when
    [1 <= window_size <= num_points]; when [window_size > num_points] the
    smoother still returns at least two values but
    [range(window_size-1, num_points)] is empty. *)
Theorem plot_axes_lengths (num_points window_size : Z) (alpha : F)
    (random_seed : option Z) (g : G) (series : list F) :
  (generate_markov_chain num_points alpha random_seed g).1 = inr series ->
  length (series_x num_points) = length series /\
  (1 <= window_size <= num_points ->
   exists smoothed,
     moving_average series window_size = inr smoothed /\
     length (smoothed_x window_size num_points) = length smoothed) /\
  (num_points < window_size ->
   exists smoothed,
     moving_average series window_size = inr smoothed /\
     smoothed_x window_size num_points = [] /\
     (2 <= length smoothed)%nat).
Proof.
  intros Hrun. apply generate_returns in Hrun as (Hn & _ & ->).
  pose proof (trajectory_length num_points alpha (start_state random_seed g))
    as Hlen.
  unfold series_x, smoothed_x, range. repeat split.
  - rewrite length_seqZ, Hlen. lia.
  - intros Hw. eexists. split; [apply moving_average_valid; lia|].
    rewrite correlate_valid_length, length_replicate, length_seqZ, Hlen. lia.
  - intros Hw. eexists. split; [|split].
    + apply moving_average_swapped; [lia|].
      intros Hnil. rewrite Hnil in Hlen. simpl in Hlen. lia.
    + apply length_zero_iff_nil. rewrite length_seqZ. lia.
    + rewrite correlate_valid_length, length_replicate, length_reverse, Hlen.
      lia.
Qed.

End PlotAxes.

(** ** Reading and rebuilding dicts *)

Lemma dict_get_app {V : Type} (d1 d2 : py_dict V) (k : string) :
  dict_get (d1 ++ d2) k
  = match dict_get d1 k with
    | Some v => Some v
    | None => dict_get d2 k
    end.
Proof.
  induction d1 as [|[k' v'] d1 IH]; simpl; [done|].
  by destruct (decide (k' = k)).
Qed.

Lemma dict_get_None {V : Type} (d : py_dict V) (k : string) :
  k ∉ dict_keys d -> dict_get d k = None.
Proof.
  unfold dict_keys. induction d as [|[k' v'] d IH]; intros Hk; simpl; [done|].
  rewrite fmap_cons, not_elem_of_cons in Hk. destruct Hk as [Hne Hk].
  rewrite decide_False by done. by apply IH.
Qed.

Lemma dict_get_Some_elem {V : Type} (d : py_dict V) (k : string) (v : V) :
  dict_get d k = Some v -> (k, v) ∈ d.
Proof.
  induction d as [|[k' v'] d IH]; simpl; [done|].
  destruct (decide (k' = k)) as [->|Hne].
  - intros [= ->]. left.
  - intros Hget. right. by apply IH.
Qed.

Lemma dict_get_Some_key {V : Type} (d : py_dict V) (k : string) (v : V) :
  dict_get d k = Some v -> k ∈ dict_keys d.
Proof.
  intros Hget. apply dict_get_Some_elem in Hget.
  unfold dict_keys. by apply (list_elem_of_fmap_2 fst) in Hget.
Qed.

Lemma dict_get_map_values {V W : Type} (f : V -> W) (d : py_dict V)
    (k : string) :
  dict_get ((fun item => (item.1, f item.2)) <$> d) k = f <$> dict_get d k.
Proof.
  induction d as [|[k' v'] d IH]; simpl; [done|].
  by destruct (decide (k' = k)).
Qed.

Lemma dict_keys_map_values {V W : Type} (f : V -> W) (d : py_dict V) :
  dict_keys ((fun item => (item.1, f item.2)) <$> d) = dict_keys d.
Proof. unfold dict_keys. rewrite <- list_fmap_compose. reflexivity. Qed.

(** A loop that stores one value per item of a dict into another dict
    appends the entries in order, since the keys of a dict are distinct. *)
Lemma foldl_dict_set {V W : Type} (f : V -> W) (sd : py_dict V)
    (acc : py_dict W) :
  NoDup (dict_keys acc ++ dict_keys sd) ->
  foldl (fun acc' item => dict_set acc' item.1 (f item.2)) acc sd
  = acc ++ ((fun item => (item.1, f item.2)) <$> sd).
Proof.
  revert acc. induction sd as [|[k v] sd IH]; intros acc Hdup; simpl.
  - by rewrite app_nil_r.
  - unfold dict_keys in Hdup. rewrite fmap_cons in Hdup. simpl in Hdup.
    rewrite dict_set_fresh; cycle 1.
    { apply NoDup_app in Hdup as (_ & Hdis & _).
      intros Hin. apply (Hdis _ Hin). left. }
    rewrite IH; cycle 1.
    { unfold dict_keys. rewrite fmap_app. simpl.
      rewrite <- app_assoc. exact Hdup. }
    by rewrite <- app_assoc.
Qed.

(** X13.  Lines 40-46 rebuild the dict key by key: [dfs] has the keys of
    [series_dict] in the same order, and [dfs[key]] (line 106) is found
    exactly when [series_dict[key]] is, holding that series as its
    ["Value"] column under the index name ["Index"]. *)
Theorem dfs_of_lookup {F : Type} (sd : py_dict (list F)) :
  NoDup (dict_keys sd) ->
  dict_keys (dfs_of sd) = dict_keys sd /\
  forall key,
    dict_get (dfs_of sd) key = DataFrame "Index" <$> dict_get sd key.
Proof.
  intros Hdup. unfold dfs_of.
  rewrite (foldl_dict_set (DataFrame "Index")) by done. simpl. split.
  - apply dict_keys_map_values.
  - intros key. apply dict_get_map_values.
Qed.

(** ** The statistics loop (lines 49-63) *)

Section AnalysisLoop.
Context {F A : Type} (analyze : list F -> Res A).

Lemma analysis_loop_returns (sd : py_dict (list F)) (acc ar : py_dict A) :
  NoDup (dict_keys acc ++ dict_keys sd) ->
  res_for_each sd
    (fun item acc' =>
       results ← analyze item.2; inr (dict_set acc' item.1 results))
    acc = inr ar ->
  exists rs : py_dict A,
    ar = acc ++ rs /\
    dict_keys rs = dict_keys sd /\
    forall key series,
      dict_get sd key = Some series ->
      exists r, analyze series = inr r /\ dict_get rs key = Some r.
Proof.
  revert acc. induction sd as [|[k s] sd IH]; intros acc Hdup Hrun.
  - simpl in Hrun. injection Hrun as <-. exists []. rewrite app_nil_r.
    repeat split. intros key series Hget. done.
  - simpl in Hrun. py_unfold.
    destruct (analyze s) as [e|r] eqn:Hs; [done|]. simpl in Hrun.
    unfold dict_keys in Hdup. rewrite fmap_cons in Hdup. simpl in Hdup.
    rewrite dict_set_fresh in Hrun; cycle 1.
    { apply NoDup_app in Hdup as (_ & Hdis & _).
      intros Hin. apply (Hdis _ Hin). left. }
    apply IH in Hrun as (rs & -> & Hkeys & Hget); cycle 1.
    { unfold dict_keys. rewrite fmap_app. simpl.
      rewrite <- app_assoc. exact Hdup. }
    exists ((k, r) :: rs). split; [by rewrite <- app_assoc|]. split.
    + unfold dict_keys in *. rewrite !fmap_cons. simpl. by rewrite Hkeys.
    + intros key series Hlook. simpl in Hlook. simpl.
      destruct (decide (k = key)) as [->|Hne].
      * injection Hlook as <-. eauto.
      * by apply Hget.
Qed.

(** X14.  Whenever the statistics loop completes, [analysis_results] has
    the keys of [series_dict] in the same order, and for every key of
    [series_dict] the read [analysis_results[key]] of line 82 finds the
    statistics computed from that key's series. *)
Theorem analysis_results_lookup (sd : py_dict (list F)) (ar : py_dict A) :
  NoDup (dict_keys sd) ->
  analysis_results_of analyze sd = inr ar ->
  dict_keys ar = dict_keys sd /\
  forall key series,
    dict_get sd key = Some series ->
    exists r, analyze series = inr r /\ dict_get ar key = Some r.
Proof.
  intros Hdup Hrun. unfold analysis_results_of in Hrun.
  apply analysis_loop_returns in Hrun as (rs & -> & Hkeys & Hget);
    [|done].
  simpl. by split.
Qed.

Lemma analysis_loop_raises (pre post : py_dict (list F)) (key : string)
    (series : list F) (e : py_exn) (acc : py_dict A) :
  (forall item, item ∈ pre -> exists r, analyze item.2 = inr r) ->
  analyze series = inl e ->
  res_for_each (pre ++ (key, series) :: post)
    (fun item acc' =>
       results ← analyze item.2; inr (dict_set acc' item.1 results))
    acc = inl e.
Proof.
  revert acc. induction pre as [|[k s] pre IH]; intros acc Hpre Hfail; simpl.
  - py_unfold. by rewrite Hfail.
  - destruct (Hpre (k, s)) as [r Hr]; [left|]. simpl in Hr.
    py_unfold. rewrite Hr. apply IH; [|done].
    intros item Hitem. apply Hpre. by right.
Qed.

End AnalysisLoop.

(** ** More about series_dict *)

Section OrchestratorMore.
Context {F G : Type} `{Float64 F} `{RandomState F G}.

Lemma dict_get_entries {V : Type} (v : py_num -> V) (coeffs : list py_num)
    (a : py_num) :
  NoDup (label <$> coeffs) -> a ∈ coeffs ->
  dict_get ((fun a' => (label a', v a')) <$> coeffs) (label a) = Some (v a).
Proof.
  induction coeffs as [|a0 coeffs IH]; intros Hdup Hin;
    [by apply elem_of_nil in Hin|].
  rewrite fmap_cons in Hdup. apply NoDup_cons in Hdup as [Hfresh Hdup].
  rewrite fmap_cons. simpl.
  apply elem_of_cons in Hin as [->|Hin].
  - by rewrite decide_True.
  - rewrite decide_False; [by apply IH|].
    intros Heq. apply Hfresh. rewrite Heq. by apply list_elem_of_fmap_2.
Qed.

(** [series_dict] is built exactly when the size is positive and the seed
    accepted, and then it is the table of trajectories. *)
Lemma series_dict_built (num_points random_seed : Z) (g : G)
    (d : py_dict (list F)) :
  (series_dict num_points random_seed g).1 = inr d <->
  1 <= num_points /\ seed_ok (Some random_seed) = true /\
  d = series_entries a_values num_points random_seed.
Proof.
  assert (Hrun : 1 <= num_points -> seed_ok (Some random_seed) = true ->
    (series_dict num_points random_seed g).1
    = inr (series_entries a_values num_points random_seed)).
  { intros Hn Hseed. unfold series_dict, series_dict_over.
    rewrite series_dict_over_run; [done..|].
    simpl. apply a_values_labels_NoDup. }
  split.
  - intros Hd.
    destruct ((generate_markov_chain num_points (to_float (PyInt 0))
                 (Some random_seed) g).1) as [e|tr] eqn:Hcall.
    + unfold series_dict, a_values in Hd.
      rewrite (series_dict_over_raises _ _ _ _ _ e Hcall) in Hd. done.
    + apply generate_returns in Hcall as (Hn & Hseed & _).
      rewrite Hrun in Hd by done. split; [done|]. split; [done|].
      congruence.
  - intros (Hn & Hseed & ->). by apply Hrun.
Qed.

(** The random state a completed comprehension leaves. *)
Lemma series_dict_over_state (a : py_num) (coeffs : list py_num)
    (num_points random_seed : Z) (d0 : py_dict (list F)) (g : G) :
  1 <= num_points -> seed_ok (Some random_seed) = true ->
  (for_each (a :: coeffs)
     (fun a' d =>
        series ← generate_markov_chain num_points (to_float a')
                   (Some random_seed);
        mret (dict_set d (label a') series))
     d0 g).2
  = advance (Z.to_nat num_points) (init_by_seed random_seed).
Proof.
  intros Hn Hseed. revert a d0 g.
  induction coeffs as [|a1 coeffs IH]; intros a d0 g.
  - simpl for_each. unfold mbind at 1, Py_bind at 1.
    unfold mbind at 1, Py_bind at 1.
    rewrite generate_start, generate_positive by done. reflexivity.
  - change (for_each (a :: a1 :: coeffs) ?body d0 g)
      with ((s' ← body a d0; for_each (a1 :: coeffs) body s') g).
    unfold mbind at 1, Py_bind at 1. unfold mbind at 1, Py_bind at 1.
    rewrite generate_start, generate_positive by done.
    unfold mret at 1, Py_ret at 1. apply IH.
Qed.

(** X16.  Reading [series_dict] by the label of a coefficient of
    [a_values] returns the trajectory that a call of
    [generate_markov_chain] with that coefficient and the same seed
    returns, whatever the random state at that call. *)
Theorem series_dict_lookup (num_points random_seed : Z) (g g' : G)
    (d : py_dict (list F)) (a : py_num) :
  (series_dict num_points random_seed g).1 = inr d ->
  a ∈ a_values ->
  exists tr,
    dict_get d (label a) = Some tr /\
    (generate_markov_chain num_points (to_float a) (Some random_seed) g').1
    = inr tr.
Proof.
  intros Hd Ha. apply series_dict_built in Hd as (Hn & Hseed & ->).
  eexists. split.
  - unfold series_entries.
    apply (dict_get_entries
             (fun a' => trajectory num_points (to_float a')
                          (init_by_seed random_seed)));
      [apply a_values_labels_NoDup | done].
  - apply generate_returns. eauto.
Qed.

(** X17.  Every series stored in [series_dict] has [num_points] elements,
    and all of them start with the same value, the first draw of the
    seeded stream. *)
Theorem series_dict_values (num_points random_seed : Z) (g : G)
    (d : py_dict (list F)) (key : string) (tr : list F) :
  (series_dict num_points random_seed g).1 = inr d ->
  dict_get d key = Some tr ->
  Z.of_nat (length tr) = num_points /\
  tr !! 0%nat = Some (noise (init_by_seed random_seed) 0).
Proof.
  intros Hd Hget. apply series_dict_built in Hd as (Hn & Hseed & ->).
  apply dict_get_Some_elem in Hget. unfold series_entries in Hget.
  apply list_elem_of_fmap in Hget as (a & [= -> ->] & _). split.
  - rewrite trajectory_length. lia.
  - by apply trajectory_head.
Qed.

(** X18.  A rerun of the script with the same inputs rebuilds the same
    [series_dict], whatever state the previous run left the global stream
    in; and a completed build leaves the stream [num_points] draws past
    the seeded state. *)
Theorem series_dict_rerun (num_points random_seed : Z) (g1 g2 : G) :
  (series_dict num_points random_seed g1).1
  = (series_dict num_points random_seed g2).1 /\
  (1 <= num_points -> seed_ok (Some random_seed) = true ->
   (series_dict num_points random_seed g1).2
   = advance (Z.to_nat num_points) (init_by_seed random_seed)).
Proof.
  split.
  - destruct (outcome num_points (to_float (PyInt 0)) (Some random_seed) g1)
      as [e|tr] eqn:Hout.
    + unfold series_dict, a_values.
      rewrite !(series_dict_over_raises _ _ _ _ _ e); [done| |].
      * rewrite generate_outcome. exact Hout.
      * rewrite generate_outcome. exact Hout.
    + rewrite <- generate_outcome in Hout.
      apply generate_returns in Hout as (Hn & Hseed & _).
      transitivity (@inr py_exn _
                      (series_entries (G := G) a_values num_points random_seed)).
      * by apply series_dict_built.
      * symmetry. by apply series_dict_built.
  - intros Hn Hseed. unfold series_dict, series_dict_over, a_values.
    by apply series_dict_over_state.
Qed.

(** X19.  How building [series_dict] fails.  A seed outside
    [0 .. 2**32-1] stops the script at line 37 with a ValueError and the
    global stream untouched; with an accepted seed a negative size raises
    a ValueError and size 0 an IndexError. *)
Theorem series_dict_raises (num_points random_seed : Z) (g : G) :
  (seed_ok (Some random_seed) = false ->
   series_dict num_points random_seed g = (inl ValueError, g)) /\
  (seed_ok (Some random_seed) = true -> num_points < 0 ->
   (series_dict num_points random_seed g).1 = inl ValueError) /\
  (seed_ok (Some random_seed) = true -> num_points = 0 ->
   (series_dict num_points random_seed g).1 = inl IndexError).
Proof.
  repeat split.
  - intros Hseed. unfold series_dict, series_dict_over, a_values.
    simpl for_each. unfold mbind at 1, Py_bind at 1.
    unfold mbind at 1, Py_bind at 1.
    by rewrite generate_rejected_seed.
  - intros Hseed Hn. unfold series_dict, a_values.
    apply series_dict_over_raises.
    rewrite generate_start, generate_negative by done. reflexivity.
  - intros Hseed ->. unfold series_dict, a_values.
    apply series_dict_over_raises.
    rewrite generate_start, generate_zero by done. reflexivity.
Qed.

End OrchestratorMore.

(** ** The further theorems at concrete inputs *)

Lemma generate_advances_stream_example :
  1 <= 3 /\ seed_ok (Some 42) = true /\
  (generate_markov_chain 3 (1 / 2)%R (Some 42) 0%nat).2
  = advance 3 (init_by_seed 42).
Proof.
  split; [lia|]. split; [reflexivity|].
  apply (generate_advances_stream 3 (1 / 2)%R (Some 42) 0%nat);
    [lia | reflexivity].
Defined.

Lemma generate_failure_state_example :
  (generate_markov_chain 3 0%R (Some (-1)) 5%nat).2 = 5%nat /\
  (generate_markov_chain (-2) 0%R (Some 42) 5%nat).2 = init_by_seed 42 /\
  (generate_markov_chain 0 0%R (Some 42) 5%nat).2
  = advance 1 (init_by_seed 42).
Proof.
  split; [|split].
  - destruct (generate_failure_state 3 0%R (Some (-1)) 5%nat) as (Hrej & _).
    exact (Hrej eq_refl).
  - destruct (generate_failure_state (-2) 0%R (Some 42) 5%nat)
      as (_ & Hneg & _).
    apply Hneg; [reflexivity | lia].
  - destruct (generate_failure_state 0 0%R (Some 42) 5%nat)
      as (_ & _ & Hzero).
    apply Hzero; reflexivity.
Defined.

Lemma generate_unseeded_continues_example :
  1 <= 3 /\ 1 <= 2 /\
  exists tr1 tr2 : list R,
    (tr1 ← generate_markov_chain 3 (1 / 2)%R None;
     tr2 ← generate_markov_chain 2 (1 / 5)%R None;
     mret (tr1, tr2)) 7%nat
    = (inr (tr1, tr2), advance (3 + 2) 7%nat) /\
    tr2 !! 0%nat = Some (noise 7%nat 3).
Proof.
  split; [lia|]. split; [lia|].
  destruct (generate_unseeded_continues 3 2 (1 / 2)%R (1 / 5)%R 7%nat)
    as (tr1 & tr2 & Hrun & _ & Hhead & _); [lia..|].
  exists tr1, tr2. split; [exact Hrun | exact Hhead].
Defined.

Lemma generate_prefix_example :
  1 <= 2 <= 5 /\
  exists trn trm : list R,
    (generate_markov_chain 2 (1 / 2)%R (Some 42) 0%nat).1 = inr trn /\
    (generate_markov_chain 5 (1 / 2)%R (Some 42) 9%nat).1 = inr trm /\
    take 2 trm = trn.
Proof.
  split; [lia|].
  assert ((generate_markov_chain 2 (1 / 2)%R (Some 42) 0%nat).1
          = inr (trajectory 2 (1 / 2)%R (init_by_seed 42))) as Hn
    by (apply generate_returns; repeat split; lia).
  assert ((generate_markov_chain 5 (1 / 2)%R (Some 42) 9%nat).1
          = inr (trajectory 5 (1 / 2)%R (init_by_seed 42))) as Hm
    by (apply generate_returns; repeat split; lia).
  eexists _, _. split; [exact Hn|]. split; [exact Hm|].
  apply (generate_prefix 2 5 (1 / 2)%R 42 0%nat 9%nat);
    [lia | exact Hn | exact Hm].
Defined.


Lemma moving_average_outcome_example :
  moving_average [1%R; 2%R] 0 = inl ValueError /\
  moving_average (@nil R) 3 = inl ValueError /\
  (exists out,
     moving_average [1%R; 2%R; 3%R] 5 = inr out /\
     Z.of_nat (length out) = Z.abs (3 - 5) + 1).
Proof.
  split; [|split].
  - destruct (moving_average_outcome [1%R; 2%R] 0) as [Hraise _].
    apply Hraise. left. lia.
  - destruct (moving_average_outcome (@nil R) 3) as [Hraise _].
    apply Hraise. by right.
  - destruct (moving_average_outcome [1%R; 2%R; 3%R] 5) as [_ Hret].
    apply Hret; [lia | done].
Defined.

(** Ten points, the smallest the slider allows, and windows 5 and 50. *)
Lemma plot_axes_lengths_example :
  exists series : list R,
    (generate_markov_chain 10 (1 / 2)%R (Some 42) 0%nat).1 = inr series /\
    length (series_x 10) = length series /\
    (exists smoothed,
       moving_average series 5 = inr smoothed /\
       length (smoothed_x 5 10) = length smoothed) /\
    (exists smoothed,
       moving_average series 50 = inr smoothed /\
       smoothed_x 50 10 = [] /\ (2 <= length smoothed)%nat).
Proof.
  assert ((generate_markov_chain 10 (1 / 2)%R (Some 42) 0%nat).1
          = inr (trajectory 10 (1 / 2)%R (init_by_seed 42))) as Hrun
    by (apply generate_returns; repeat split; lia).
  eexists. split; [exact Hrun|].
  destruct (plot_axes_lengths 10 5 (1 / 2)%R (Some 42) 0%nat _ Hrun)
    as (Hx & Hin & _).
  destruct (plot_axes_lengths 10 50 (1 / 2)%R (Some 42) 0%nat _ Hrun)
    as (_ & _ & Hout).
  split; [exact Hx|]. split; [apply Hin; lia | apply Hout; lia].
Defined.

Lemma dfs_of_lookup_example :
  NoDup (dict_keys [("α = 0", [1%R; 2%R]); ("α = 0.2", [3%R])]) /\
  dict_keys (dfs_of [("α = 0", [1%R; 2%R]); ("α = 0.2", [3%R])])
  = ["α = 0"; "α = 0.2"] /\
  dict_get (dfs_of [("α = 0", [1%R; 2%R]); ("α = 0.2", [3%R])]) "α = 0.2"
  = Some (DataFrame "Index" [3%R]) /\
  dict_get (dfs_of [("α = 0", [1%R; 2%R]); ("α = 0.2", [3%R])]) "α = 7"
  = None.
Proof.
  assert (NoDup (dict_keys [("α = 0", [1%R; 2%R]); ("α = 0.2", [3%R])]))
    as Hdup by (vm_compute; compute_done).
  destruct (dfs_of_lookup _ Hdup) as [Hkeys Hget].
  split; [exact Hdup|]. split; [exact Hkeys|]. split.
  - exact (Hget "α = 0.2").
  - exact (Hget "α = 7").
Defined.

Lemma analysis_results_lookup_example :
  exists ar,
    analysis_results_of count_values
      [("α = 0", [1%R; 2%R]); ("α = 0.2", [3%R])] = inr ar /\
    dict_keys ar = ["α = 0"; "α = 0.2"] /\
    exists r, count_values [3%R] = inr r /\ dict_get ar "α = 0.2" = Some r.
Proof.
  assert (NoDup (dict_keys [("α = 0", [1%R; 2%R]); ("α = 0.2", [3%R])]))
    as Hdup by (vm_compute; compute_done).
  assert (analysis_results_of count_values
            [("α = 0", [1%R; 2%R]); ("α = 0.2", [3%R])]
          = inr [("α = 0", 2%nat); ("α = 0.2", 1%nat)]) as Hrun
    by reflexivity.
  destruct (analysis_results_lookup count_values _ _ Hdup Hrun)
    as [Hkeys Hget].
  eexists. split; [exact Hrun|]. split; [exact Hkeys|].
  apply (Hget "α = 0.2" [3%R]). reflexivity.
Defined.

Lemma series_dict_lookup_example :
  exists (d : py_dict (list R)) (tr : list R),
    (series_dict 100 42 0%nat).1 = inr d /\
    PyFloat 8 ∈ a_values /\
    dict_get d "α = 0.8" = Some tr /\
    (generate_markov_chain 100 (8 / 10)%R (Some 42) 17%nat).1 = inr tr.
Proof.
  assert ((series_dict 100 42 0%nat).1
          = inr (series_entries (F := R) a_values 100 42)) as Hd
    by (apply series_dict_built; repeat split; lia).
  assert (PyFloat 8 ∈ a_values) as Ha by (unfold a_values; repeat constructor).
  destruct (series_dict_lookup 100 42 0%nat 17%nat _ (PyFloat 8) Hd Ha)
    as (tr & Hget & Hcall).
  eexists _, tr. split; [exact Hd|]. split; [exact Ha|].
  split; [exact Hget | exact Hcall].
Defined.

Lemma series_dict_values_example :
  exists (d : py_dict (list R)) (tr : list R),
    (series_dict 100 42 0%nat).1 = inr d /\
    dict_get d "α = 1.2" = Some tr /\
    Z.of_nat (length tr) = 100 /\
    tr !! 0%nat = Some (noise (init_by_seed 42) 0).
Proof.
  assert ((series_dict 100 42 0%nat).1
          = inr (series_entries (F := R) a_values 100 42)) as Hd
    by (apply series_dict_built; repeat split; lia).
  assert (dict_get (series_entries (F := R) (G := nat) a_values 100 42)
            "α = 1.2"
          = Some (trajectory 100 (12 / 10)%R (init_by_seed 42))) as Hget
    by reflexivity.
  eexists _, _. split; [exact Hd|]. split; [exact Hget|].
  exact (series_dict_values 100 42 0%nat _ _ _ Hd Hget).
Defined.

Lemma series_dict_rerun_example :
  1 <= 100 /\ seed_ok (Some 42) = true /\
  (series_dict (F := R) 100 42 0%nat).1 = (series_dict 100 42 31%nat).1 /\
  (series_dict (F := R) 100 42 0%nat).2 = advance 100 (init_by_seed 42).
Proof.
  destruct (series_dict_rerun (F := R) 100 42 0%nat 31%nat) as [Hsame Hstate].
  split; [lia|]. split; [reflexivity|]. split; [exact Hsame|].
  apply Hstate; [lia | reflexivity].
Defined.

Lemma series_dict_raises_example :
  series_dict (F := R) 100 (-1) 5%nat = (inl ValueError, 5%nat) /\
  (series_dict (F := R) (-3) 42 5%nat).1 = inl ValueError /\
  (series_dict (F := R) 0 42 5%nat).1 = inl IndexError.
Proof.
  split; [|split].
  - destruct (series_dict_raises (F := R) 100 (-1) 5%nat) as (Hrej & _).
    exact (Hrej eq_refl).
  - destruct (series_dict_raises (F := R) (-3) 42 5%nat) as (_ & Hneg & _).
    apply Hneg; [reflexivity | lia].
  - destruct (series_dict_raises (F := R) 0 42 5%nat) as (_ & _ & Hzero).
    apply Hzero; reflexivity.
Defined.

(** ** What the smoother computes, in any arithmetic *)

Section SmootherValues.
Context {F : Type} `{Float64 F}.


(** X8.  A window longer than a non-empty series gives a constant: the
    [window_size - len(series) + 1] values returned are all the same, the
    inner product of [len(series)] copies of the weight [1 / window_size]
    with the reversed series. *)
Theorem moving_average_long_window_constant (series : list F)
    (window_size : Z) :
  Z.of_nat (length series) < window_size -> series <> [] ->
  moving_average series window_size
  = inr (replicate (Z.to_nat window_size - length series + 1)
           (dot (replicate (length series)
                   (fdiv (of_int 1) (of_int window_size)))
              (reverse series))).
Proof.
  intros Hw Hs. rewrite moving_average_swapped by done. f_equal.
  apply list_eq. intros i.
  destruct (decide (i < Z.to_nat window_size - length series + 1)%nat)
    as [Hi|Hi].
  - rewrite lookup_replicate_2 by done.
    rewrite correlate_valid_lookup
      by (rewrite length_replicate, length_reverse; lia).
    rewrite length_reverse, drop_replicate, take_replicate.
    by replace (length series `min` (Z.to_nat window_size - i))%nat
      with (length series) by lia.
  - rewrite !lookup_ge_None_2; [done| |].
    + rewrite length_replicate. lia.
    + rewrite correlate_valid_length, length_replicate, length_reverse. lia.
Qed.

(** X9.  Smoothing a constant series returns a constant series: for
    [1 <= window_size <= n], the moving average of [n] copies of [c] is
    [n - window_size + 1] copies of one value, the inner product of
    [window_size] copies of [c] with the kernel. *)
Theorem moving_average_constant (n : nat) (c : F) (window_size : Z) :
  1 <= window_size <= Z.of_nat n ->
  moving_average (replicate n c) window_size
  = inr (replicate (n - Z.to_nat window_size + 1)
           (dot (replicate (Z.to_nat window_size) c)
              (replicate (Z.to_nat window_size)
                 (fdiv (of_int 1) (of_int window_size))))).
Proof.
  intros Hw.
  rewrite moving_average_valid by (rewrite length_replicate; lia). f_equal.
  apply list_eq. intros i.
  destruct (decide (i < n - Z.to_nat window_size + 1)%nat) as [Hi|Hi].
  - rewrite lookup_replicate_2 by done.
    rewrite correlate_valid_lookup by (rewrite !length_replicate; lia).
    rewrite length_replicate, drop_replicate, take_replicate.
    by replace (Z.to_nat window_size `min` (n - i))%nat
      with (Z.to_nat window_size) by lia.
  - rewrite !lookup_ge_None_2; [done| |].
    + rewrite length_replicate. lia.
    + rewrite correlate_valid_length, !length_replicate. lia.
Qed.

(** X20.  Line 74 draws the smoothed series as a trailing average: inside
    the contract, the [i]-th smoothed value is drawn at
    [x = i + window_size - 1] and is computed from the values of the
    series at the indices [i .. x] alone.  Two series that agree there
    have the same [i]-th smoothed value, whatever they hold after [x]. *)
Theorem plot_smoothed_alignment (s1 s2 : list F) (num_points window_size : Z)
    (i : nat) :
  Z.of_nat (length s1) = num_points ->
  Z.of_nat (length s2) = num_points ->
  1 <= window_size <= num_points ->
  Z.of_nat i <= num_points - window_size ->
  (forall j : nat,
     (i <= j)%nat -> Z.of_nat j <= Z.of_nat i + window_size - 1 ->
     s1 !! j = s2 !! j) ->
  exists smoothed1 smoothed2 v,
    moving_average s1 window_size = inr smoothed1 /\
    moving_average s2 window_size = inr smoothed2 /\
    smoothed_x window_size num_points !! i
    = Some (Z.of_nat i + window_size - 1) /\
    smoothed1 !! i = Some v /\
    smoothed2 !! i = Some v.
Proof.
  intros Hlen1 Hlen2 Hw Hi Hagree. do 3 eexists.
  split; [apply moving_average_valid; lia|].
  split; [apply moving_average_valid; lia|].
  split.
  { unfold smoothed_x, range. rewrite lookup_seqZ_lt by lia. f_equal. lia. }
  rewrite !correlate_valid_lookup by (rewrite length_replicate; lia).
  split; [reflexivity|]. do 2 f_equal.
  apply list_eq. intros j. rewrite length_replicate.
  destruct (decide (j < Z.to_nat window_size)%nat) as [Hj|Hj].
  - rewrite !lookup_take_lt, !lookup_drop by done.
    symmetry. apply Hagree; lia.
  - by rewrite !lookup_take_ge by lia.
Qed.

End SmootherValues.

(** ** The same draws for every coefficient, in any arithmetic *)

Section SameDraws.
Context {F G : Type} `{Float64 F} `{RandomState F G}.

(** C7, as the code has it.  Two trajectories generated with the same
    seed and size but coefficients [a] and [b] have the same first
    element, and at every later index [t] each is its own coefficient
    times its previous element plus one and the same draw, the [t]-th of
    the seeded stream: [A[t] = a*A[t-1] + e_t] and [B[t] = b*B[t-1] + e_t]
    in the program's arithmetic. *)
Theorem generate_same_draws (num_points : Z) (a b : F) (seed : Z)
    (gA gB : G) :
  1 <= num_points ->
  (forall trA trB,
     (generate_markov_chain num_points a (Some seed) gA).1 = inr trA ->
     (generate_markov_chain num_points b (Some seed) gB).1 = inr trB ->
     trA !! 0%nat = Some (noise (init_by_seed seed) 0) /\
     trB !! 0%nat = Some (noise (init_by_seed seed) 0) /\
     forall t : nat,
       (1 <= t)%nat -> Z.of_nat t < num_points ->
       exists xa xb,
         trA !! (t - 1)%nat = Some xa /\
         trB !! (t - 1)%nat = Some xb /\
         trA !! t = Some (fadd (fmul a xa) (noise (init_by_seed seed) t)) /\
         trB !! t = Some (fadd (fmul b xb) (noise (init_by_seed seed) t))) /\
  (seed_ok (Some seed) = true ->
   exists trA trB,
     (generate_markov_chain num_points a (Some seed) gA).1 = inr trA /\
     (generate_markov_chain num_points b (Some seed) gB).1 = inr trB).
Proof.
  intros Hn. split.
  - intros trA trB HA HB.
    apply generate_returns in HA as (_ & _ & ->).
    apply generate_returns in HB as (_ & _ & ->).
    simpl start_state.
    split; [by apply trajectory_head|]. split; [by apply trajectory_head|].
    intros t Ht1 Htn.
    destruct (trajectory_step num_points a (init_by_seed seed) t Ht1 Htn)
      as (xa & Hxa & Hta).
    destruct (trajectory_step num_points b (init_by_seed seed) t Ht1 Htn)
      as (xb & Hxb & Htb).
    by exists xa, xb.
  - intros Hseed. do 2 eexists. split; apply generate_returns; eauto.
Qed.

End SameDraws.

(** ** The statistics loop at a raise *)

Section AnalysisInPlace.
Context {F A : Type} (analyze : list F -> Res A).

Lemma analysis_loop_in_place_raises (pre post : py_dict (list F))
    (key : string) (series : list F) (e : py_exn) (acc : py_dict A) :
  NoDup (dict_keys acc ++ dict_keys pre) ->
  (forall item, item ∈ pre -> exists r, analyze item.2 = inr r) ->
  analyze series = inl e ->
  exists rs : py_dict A,
    analysis_loop_in_place analyze (pre ++ (key, series) :: post) acc
    = (acc ++ rs, Some e) /\
    dict_keys rs = dict_keys pre /\
    forall k s,
      dict_get pre k = Some s ->
      exists r, analyze s = inr r /\ dict_get rs k = Some r.
Proof.
  revert acc. induction pre as [|[k0 s0] pre IH]; intros acc Hdup Hpre Hfail.
  - exists []. simpl. rewrite Hfail, app_nil_r. repeat split.
    intros k s Hget. done.
  - destruct (Hpre (k0, s0)) as [r0 Hr0]; [left|]. simpl in Hr0.
    simpl. rewrite Hr0.
    unfold dict_keys in Hdup. rewrite fmap_cons in Hdup. simpl in Hdup.
    rewrite dict_set_fresh; cycle 1.
    { apply NoDup_app in Hdup as (_ & Hdis & _).
      intros Hin. apply (Hdis _ Hin). left. }
    destruct (IH (acc ++ [(k0, r0)])) as (rs & Hrun & Hkeys & Hget);
      [|intros item Hitem; apply Hpre; by right|done|].
    { unfold dict_keys. rewrite fmap_app. simpl.
      rewrite <- app_assoc. exact Hdup. }
    exists ((k0, r0) :: rs). split; [by rewrite Hrun, <- app_assoc|]. split.
    + unfold dict_keys in *. rewrite !fmap_cons. simpl. by rewrite Hkeys.
    + intros k s Hlook. simpl in Hlook. simpl.
      destruct (decide (k0 = k)) as [->|Hne].
      * injection Hlook as <-. eauto.
      * by apply Hget.
Qed.

(** X15.  When the statistics of some series raise, the loop stops there
    with that exception, and [analysis_results] then holds the results of
    exactly the series before it, under their keys and in their order;
    the failing key and the keys after it are missing. *)
Theorem analysis_results_first_failure (pre post : py_dict (list F))
    (key : string) (series : list F) (e : py_exn) :
  NoDup (dict_keys (pre ++ (key, series) :: post)) ->
  (forall item, item ∈ pre -> exists r, analyze item.2 = inr r) ->
  analyze series = inl e ->
  exists rs : py_dict A,
    analysis_results_in_place analyze (pre ++ (key, series) :: post)
    = (rs, Some e) /\
    analysis_results_of analyze (pre ++ (key, series) :: post) = inl e /\
    dict_keys rs = dict_keys pre /\
    (forall k s,
       dict_get pre k = Some s ->
       exists r, analyze s = inr r /\ dict_get rs k = Some r) /\
    dict_get rs key = None /\
    (forall k, k ∈ dict_keys post -> dict_get rs k = None).
Proof.
  intros Hdup Hpre Hfail.
  unfold dict_keys in Hdup. rewrite fmap_app, fmap_cons in Hdup. simpl in Hdup.
  destruct (analysis_loop_in_place_raises pre post key series e [])
    as (rs & Hrun & Hkeys & Hget); [|done..|].
  { simpl. by apply NoDup_app in Hdup as (Hdup & _). }
  exists rs. split; [exact Hrun|].
  split; [by apply analysis_loop_raises|].
  split; [exact Hkeys|]. split; [exact Hget|].
  apply NoDup_app in Hdup as (_ & Hdis & _).
  split.
  - apply dict_get_None. rewrite Hkeys. intros Hin.
    apply (Hdis _ Hin). left.
  - intros k Hk. apply dict_get_None. rewrite Hkeys. intros Hin.
    apply (Hdis _ Hin). by right.
Qed.

End AnalysisInPlace.

(** ** The revised theorems at concrete inputs *)



(** Seed 0, two points, the coefficients 0.2 and 0.5 of the table, in
    binary64: both trajectories start with the first draw, and the second
    draw is 0.4001572083672233, but [A[1] - 0.2*A[0]] and
    [B[1] - 0.5*B[0]] come out one unit in the last place apart. *)
Lemma generate_innovations_differ :
  (generate_markov_chain 2 (to_float (PyFloat 2)) (Some 0) 0%nat).1
  = inr [1.764052345967664%float; 0.75296767756075611%float] /\
  (generate_markov_chain 2 (to_float (PyFloat 5)) (Some 0) 0%nat).1
  = inr [1.764052345967664%float; 1.2821833813510553%float] /\
  (0.75296767756075611 - to_float (PyFloat 2) * 1.764052345967664
   = 0.4001572083672233)%float /\
  (1.2821833813510553 - to_float (PyFloat 5) * 1.764052345967664
   = 0.40015720836722324)%float /\
  PrimFloat.eqb 0.4001572083672233 0.40015720836722324 = false.
Proof. repeat split; vm_compute; reflexivity. Qed.

Lemma generate_same_draws_example :
  1 <= 2 /\ seed_ok (Some 0) = true /\
  exists (trA trB : list float) (xa xb : float),
    (generate_markov_chain 2 (to_float (PyFloat 2)) (Some 0) 0%nat).1
    = inr trA /\
    (generate_markov_chain 2 (to_float (PyFloat 5)) (Some 0) 1%nat).1
    = inr trB /\
    trA !! 0%nat = Some xa /\ trB !! 0%nat = Some xb /\
    trA !! 1%nat
    = Some (fadd (fmul (to_float (PyFloat 2)) xa)
              (noise (init_by_seed 0) 1)) /\
    trB !! 1%nat
    = Some (fadd (fmul (to_float (PyFloat 5)) xb)
              (noise (init_by_seed 0) 1)).
Proof.
  destruct (generate_same_draws 2 (to_float (F := float) (PyFloat 2))
              (to_float (PyFloat 5)) 0 0%nat 1%nat) as [Hsame Hret]; [lia|].
  destruct (Hret eq_refl) as (trA & trB & HA & HB).
  destruct (Hsame trA trB HA HB) as (_ & _ & Hstep).
  destruct (Hstep 1%nat) as (xa & xb & Hxa & Hxb & Hta & Htb); [lia..|].
  split; [lia|]. split; [reflexivity|].
  exists trA, trB, xa, xb. repeat split; assumption.
Defined.

Lemma moving_average_long_window_constant_example :
  Z.of_nat (length [1%float; 2%float]) < 5 /\
  moving_average [1%float; 2%float] 5
  = inr (replicate 4
           (dot (replicate 2 (fdiv (of_int 1) (of_int 5)))
              [2%float; 1%float])).
Proof.
  split; [simpl; lia|].
  apply (moving_average_long_window_constant [1%float; 2%float] 5);
    [simpl; lia | done].
Defined.

Lemma moving_average_constant_example :
  1 <= 3 <= Z.of_nat 5 /\
  moving_average (replicate 5 7%float) 3
  = inr (replicate 3
           (dot (replicate 3 7%float)
              (replicate 3 (fdiv (of_int 1) (of_int 3))))).
Proof.
  split; [lia|]. apply (moving_average_constant 5 7%float 3). lia.
Defined.

(** Two series that differ only at index 4: the smoothed value drawn at
    [x = 3] is the same. *)
Lemma plot_smoothed_alignment_example :
  exists smoothed1 smoothed2 v,
    moving_average [1%float; 2%float; 3%float; 4%float; 5%float] 3
    = inr smoothed1 /\
    moving_average [1%float; 2%float; 3%float; 4%float; 9%float] 3
    = inr smoothed2 /\
    smoothed_x 3 5 !! 1%nat = Some 3 /\
    smoothed1 !! 1%nat = Some v /\
    smoothed2 !! 1%nat = Some v.
Proof.
  apply (plot_smoothed_alignment
           [1%float; 2%float; 3%float; 4%float; 5%float]
           [1%float; 2%float; 3%float; 4%float; 9%float] 5 3 1%nat);
    [reflexivity | reflexivity | lia | lia |].
  intros j Hlo Hhi.
  destruct j as [|[|[|[|j]]]]; try reflexivity; lia.
Defined.

Lemma analysis_results_first_failure_example :
  exists rs,
    analysis_results_in_place count_values
      ([("α = 0", [1%R; 2%R])] ++ ("α = 0.2", []) :: [("α = 0.5", [3%R])])
    = (rs, Some ValueError) /\
    dict_keys rs = ["α = 0"] /\
    dict_get rs "α = 0" = Some 2%nat /\
    dict_get rs "α = 0.2" = None /\
    dict_get rs "α = 0.5" = None.
Proof.
  assert (NoDup (dict_keys
            ([("α = 0", [1%R; 2%R])] ++ ("α = 0.2", [])
               :: [("α = 0.5", [3%R])]))) as Hdup
    by (vm_compute; compute_done).
  destruct (analysis_results_first_failure count_values
              [("α = 0", [1%R; 2%R])] [("α = 0.5", [3%R])]
              "α = 0.2" [] ValueError Hdup)
    as (rs & Hrun & _ & Hkeys & Hget & Hkey & Hpost).
  { intros item Hitem. apply list_elem_of_singleton in Hitem as ->.
    by exists 2%nat. }
  { reflexivity. }
  exists rs. split; [exact Hrun|]. split; [exact Hkeys|]. split.
  - destruct (Hget "α = 0" [1%R; 2%R]) as (r & Hr & Hlook); [reflexivity|].
    injection Hr as <-. exact Hlook.
  - split; [exact Hkey|]. apply Hpost. vm_compute. left.
Defined.
